(** * Device-tree helpers of the TEE core (core/kernel/dt.c)

    A shallow embedding of the functions of [core/kernel/dt.c]:
    [dt_find_compatible_driver], [dt_map_dev], [_fdt_read_paddr],
    [_fdt_reg_base_address], [_fdt_reg_size], [is_okay] and
    [_fdt_get_status], together with the properties of the design
    description that concern them.

    C integers are [Z] with the conversions written out, property values are
    byte lists, libfdt and the memory mapping layer are interfaces (type
    classes) of which the functions are clients. *)

From Stdlib Require Import ZArith List String Bool Lia.
From Stdlib Require Import Strings.Byte.
Import ListNotations.
Local Open Scope Z_scope.

(* ================================================================== *)
(** * Outcomes of running a C function *)

(** What stops a run before the function returns. *)
Inductive fault : Type :=
| AssertionFailed      (* assert(e) with e false *)
| ReadOutsideObject    (* a load from bytes that are not part of the object
                          the pointer was derived from *)
| NullString.          (* a null pointer used as a C string *)

(** A run either returns a value or stops on a fault. *)
Inductive run (A : Type) : Type :=
| Ret (a : A)
| Stop (f : fault).
Arguments Ret {A} a.
Arguments Stop {A} f.

Definition bind {A B : Type} (c : run A) (k : A -> run B) : run B :=
  match c with
  | Ret a => k a
  | Stop f => Stop f
  end.

Notation "x <- c ;; k" := (bind c (fun x => k))
  (at level 61, c at next level, right associativity).

(* ================================================================== *)
(** * Bytes, C strings and 32-bit cells *)

(** The value of a byte as an [unsigned char]. *)
Definition uchar (b : byte) : Z := Z.of_N (Byte.to_N b).

(** The bytes of a C string literal, terminator included. *)
Definition cstr (s : string) : list byte := list_byte_of_string s ++ [x00].

(** [*p] for a [const char *p] into a known object: the list holds the bytes
    from [p] to the end of the object. *)
Definition load_char (p : list byte) : run Z :=
  match p with
  | [] => Stop ReadOutsideObject
  | b :: _ => Ret (uchar b)
  end.

(** [strncmp(s1, s2, n)]: at most [n] characters are compared, the
    comparison stops after a NUL, the result is the difference of the first
    two characters that differ. *)
Fixpoint strncmp (s1 s2 : list byte) (n : nat) : run Z :=
  match n with
  | O => Ret 0
  | S n' =>
      c1 <- load_char s1 ;;
      c2 <- load_char s2 ;;
      if negb (c1 =? c2) then Ret (c1 - c2)
      else if c1 =? 0 then Ret 0
      else strncmp (tl s1) (tl s2) n'
  end.

(** [fdt32_to_cpu] applied to [*cell]: libfdt assembles the value from the
    four bytes in memory, most significant first, whatever the byte order of
    the CPU. *)
Definition fdt32_to_cpu (b0 b1 b2 b3 : byte) : Z :=
  Z.lor (Z.lor (Z.lor (Z.shiftl (uchar b0) 24) (Z.shiftl (uchar b1) 16))
               (Z.shiftl (uchar b2) 8))
        (uchar b3).

(** [fdt32_to_cpu] of [*cell] for a [const uint32_t *cell] into a property
    value. *)
Definition load_cell (cell : list byte) : run Z :=
  match cell with
  | b0 :: b1 :: b2 :: b3 :: _ => Ret (fdt32_to_cpu b0 b1 b2 b3)
  | _ => Stop ReadOutsideObject
  end.

(** [cell + n] on a [const uint32_t *cell]. *)
Definition cell_add (cell : list byte) (n : Z) : list byte :=
  skipn (Z.to_nat (4 * n)) cell.

(** The big-endian encoding of a 32-bit word, as the blob stores it. *)
Definition cell_bytes (w : Z) : list byte :=
  map (fun k => match Byte.of_N (Z.to_N (Z.land (Z.shiftr w k) 255)) with
                | Some b => b
                | None => x00
                end)
      [24; 16; 8; 0].

Definition cells_bytes (ws : list Z) : list byte := flat_map cell_bytes ws.

(* ================================================================== *)
(** * Integer types of the platform *)

(** Reduction modulo [2^w]: the value of an unsigned [w]-bit integer. *)
Definition wrap (w x : Z) : Z := x mod 2 ^ w.

(** Conversion to a signed [w]-bit integer (two's complement). *)
Definition sint (w x : Z) : Z := (x + 2 ^ (w - 1)) mod 2 ^ w - 2 ^ (w - 1).

(** Modelled from the spec: the typedefs of [paddr_t], [vaddr_t], [size_t]
    and [ssize_t] are not in dt.c. The build with [ARM32] defined is the
    platform "whose native address width is 32 bits", the other one the
    "64-bit-addressed platform"; the four types have that width. *)
Definition addr_bits (ARM32 : bool) : Z := if ARM32 then 32 else 64.

(** [(paddr_t)-1], the value the address functions return on failure. *)
Definition paddr_invalid (ARM32 : bool) : Z := wrap (addr_bits ARM32) (-1).

(** Conversion of an integer to [ssize_t]. *)
Definition to_ssize (ARM32 : bool) (x : Z) : Z := sint (addr_bits ARM32) x.

(* ================================================================== *)
(** * Node status *)

(** Modelled from the spec: the [DT_STATUS_*] macros are declared in
    kernel/dt.h, which is not at hand. The status is "a two-bit set
    {ACTIVE_NONSECURE, ACTIVE_SECURE}", and a node is disabled "when neither
    flag is set": bit 0, bit 1 and the empty set. *)
Definition DT_STATUS_DISABLED : Z := 0.
Definition DT_STATUS_OK_NSEC : Z := Z.shiftl 1 0.
Definition DT_STATUS_OK_SEC : Z := Z.shiftl 1 1.

(** The two flags of a status word, as [st & DT_STATUS_OK_x] tests them. *)
Definition nonsecure_ok (st : Z) : bool := negb (Z.land st DT_STATUS_OK_NSEC =? 0).
Definition secure_ok (st : Z) : bool := negb (Z.land st DT_STATUS_OK_SEC =? 0).

(** [is_okay(st, len)]; the second comparison is made only when the first one
    finds a difference. *)
Definition is_okay (st : list byte) (len : Z) : run bool :=
  r1 <- strncmp st (cstr "ok") (Z.to_nat len) ;;
  if r1 =? 0 then Ret true
  else
    r2 <- strncmp st (cstr "okay") (Z.to_nat len) ;;
    Ret (r2 =? 0).

(* ================================================================== *)
(** * The blob query interface (libfdt) *)

(** The libfdt functions dt.c calls, for a blob type [blob] standing for
    [const void *fdt]; node offsets are C [int]s.

    [fdt_getprop] gives the bytes of the property value, whose number is the
    [len] libfdt stores through its last argument, or [None] for a null
    result. [fdt_node_check_compatible] receives a [const char *] that may be
    null ([None]), and what it does then is for the implementation to say. *)
Class LibFdt (blob : Type) : Type := {
  fdt_getprop : blob -> Z -> string -> option (list byte);
  fdt_parent_offset : blob -> Z -> Z;
  fdt_address_cells : blob -> Z -> Z;
  fdt_size_cells : blob -> Z -> Z;
  fdt_node_check_compatible : blob -> Z -> option string -> run Z
}.

Definition prop_len (prop : list byte) : Z := Z.of_nat (List.length prop).

Section StatusResolver.
Context {blob : Type} `{LibFdt blob}.

(** [_fdt_get_status(fdt, offs)] *)
Definition _fdt_get_status (fdt : blob) (offs : Z) : run Z :=
  let st := 0 in
  st <- match fdt_getprop fdt offs "status" with
        | None => Ret (Z.lor st DT_STATUS_OK_NSEC)
        | Some prop =>
            ok <- is_okay prop (prop_len prop) ;;
            Ret (if ok then Z.lor st DT_STATUS_OK_NSEC else st)
        end ;;
  match fdt_getprop fdt offs "secure-status" with
  | None =>
      Ret (if negb (Z.land st DT_STATUS_OK_NSEC =? 0)
           then Z.lor st DT_STATUS_OK_SEC else st)
  | Some prop =>
      ok <- is_okay prop (prop_len prop) ;;
      Ret (if ok then Z.lor st DT_STATUS_OK_SEC else st)
  end.
End StatusResolver.

Section PropertyPresence.
Context {blob : Type} `{LibFdt blob}.

(** [dt_have_prop(fdt, offs, propname)]: the pointer [fdt_getprop] gives,
    converted to [bool]; the length is not asked for. *)
Definition dt_have_prop (fdt : blob) (offs : Z) (propname : string) : bool :=
  match fdt_getprop fdt offs propname with
  | Some _ => true
  | None => false
  end.
End PropertyPresence.

(* ================================================================== *)
(** * Address resolver *)

Section AddressResolver.
Variable ARM32 : bool.

(** [_fdt_read_paddr(cell, n)]: read a physical address of [n] cells. Both
    arms of the [#ifdef ARM32] are kept, [ARM32] chooses. The label [bad]
    returns [(paddr_t)-1]. *)
Definition _fdt_read_paddr (cell : list byte) (n : Z) : run Z :=
  let bad := paddr_invalid ARM32 in
  let check_zero (addr : Z) := if addr =? 0 then Ret bad else Ret addr in
  if (n <? 1) || (n >? 2) then Ret bad
  else
    addr <- load_cell cell ;;
    let cell := cell_add cell 1 in
    if n =? 2 then
      if ARM32 then
        if negb (addr =? 0) then Ret bad
        else
          addr <- load_cell cell ;;
          check_zero addr
      else
        lo <- load_cell cell ;;
        check_zero (Z.lor (wrap (addr_bits ARM32) (Z.shiftl addr 32)) lo)
    else check_zero addr.

Context {blob : Type} `{LibFdt blob}.

(** [_fdt_reg_base_address(fdt, offs)] *)
Definition _fdt_reg_base_address (fdt : blob) (offs : Z) : run Z :=
  let parent := fdt_parent_offset fdt offs in
  if parent <? 0 then Ret (paddr_invalid ARM32)
  else
    match fdt_getprop fdt offs "reg" with
    | None => Ret (paddr_invalid ARM32)
    | Some reg =>
        let ncells := fdt_address_cells fdt parent in
        if ncells <? 0 then Ret (paddr_invalid ARM32)
        else _fdt_read_paddr reg ncells
    end.

(** [_fdt_reg_size(fdt, offs)]; the result type is [ssize_t], to which the
    [(paddr_t)-1] of the first exit and the [uint32_t sz] of the last one
    are converted. *)
Definition _fdt_reg_size (fdt : blob) (offs : Z) : run Z :=
  let parent := fdt_parent_offset fdt offs in
  if parent <? 0 then Ret (to_ssize ARM32 (paddr_invalid ARM32))
  else
    match fdt_getprop fdt offs "reg" with
    | None => Ret (-1)
    | Some reg =>
        let n := fdt_address_cells fdt parent in
        if (n <? 1) || (n >? 2) then Ret (-1)
        else
          let reg := cell_add reg n in
          let n := fdt_size_cells fdt parent in
          if (n <? 1) || (n >? 2) then Ret (-1)
          else
            sz <- load_cell reg ;;
            if n =? 2 then
              if negb (sz =? 0) then Ret (-1)
              else
                let reg := cell_add reg 1 in
                sz <- load_cell reg ;;
                Ret (to_ssize ARM32 sz)
            else Ret (to_ssize ARM32 sz)
    end.
End AddressResolver.

(* ================================================================== *)
(** * Driver registry and compatibility matcher *)

(** Modelled from the spec: [struct dt_device_match] and [struct dt_driver]
    are declared in kernel/dt.h, which is not at hand. A descriptor is an
    "identity (name) + ordered list of compatibility patterns"; dt.c reads
    the fields [match_table] (a pointer to an array, [None] when null) and
    [compatible] (a [const char *], [None] when null). *)
Record dt_device_match : Type := { compatible : option string }.

Record dt_driver : Type := {
  name : string;
  match_table : option (list dt_device_match)
}.

Section CompatibilityMatcher.
Context {blob : Type} `{LibFdt blob}.
Variable fdt : blob.
Variable offs : Z.

(** The inner loop [for (...; dm; dm++)] from a non-null [dm], given as the
    elements of the array from [dm] on. [true] stands for [return drv].
    After [dm++] the loop test [dm] holds again, a pointer one element
    further being no null pointer; once [dm] has left the array (empty
    list), [dm->compatible] is a load from outside of it. *)
Fixpoint match_loop (dm : list dt_device_match) : run bool :=
  match dm with
  | [] => Stop ReadOutsideObject
  | m :: dm' =>
      r <- fdt_node_check_compatible fdt offs (compatible m) ;;
      if r =? 0 then Ret true else match_loop dm'
  end.

(** The inner loop with its initialisation [dm = drv->match_table]; [false]
    stands for leaving the loop through its test. *)
Definition scan_match_table (drv : dt_driver) : run bool :=
  match match_table drv with
  | None => Ret false
  | Some dm => match_loop dm
  end.

(** [dt_find_compatible_driver(fdt, offs)]. [for_each_dt_driver] walks the
    descriptors the linker collected, here the list [registry], in their
    order; [None] is the null result. *)
Fixpoint dt_find_compatible_driver (registry : list dt_driver)
  : run (option dt_driver) :=
  match registry with
  | [] => Ret None
  | drv :: rest =>
      hit <- scan_match_table drv ;;
      if hit then Ret (Some drv) else dt_find_compatible_driver rest
  end.
End CompatibilityMatcher.

(* ================================================================== *)
(** * The memory mapper interface and [dt_map_dev] *)

(** The two members of [enum teecore_memtypes] dt.c uses. *)
Inductive teecore_memtypes : Type := MEM_AREA_IO_SEC | MEM_AREA_IO_NSEC.

(** The functions of the mapping layer dt.c calls, over the state [M] of
    that layer. [phys_to_virt] gives 0 for a null pointer. *)
Class CoreMmu (M : Type) : Type := {
  cpu_mmu_enabled : M -> bool;
  core_mmu_add_mapping : teecore_memtypes -> Z -> Z -> M -> bool * M;
  phys_to_virt : Z -> teecore_memtypes -> M -> Z
}.

(** What [dt_map_dev] does to the outside, in the order it does it. *)
Inductive event : Type :=
| CallAddMapping (mtype : teecore_memtypes) (pbase sz : Z)
| CallPhysToVirt (pbase : Z) (mtype : teecore_memtypes)
| EmsgFailedToMap (sz pbase : Z)
| EmsgFailedToGetVa (pbase : Z).

(** The state [dt_map_dev] runs in: the mapping layer and the record of the
    calls made so far (latest last). *)
Record machine (M : Type) : Type := {
  mmu : M;
  events : list event
}.
Arguments mmu {M} _.
Arguments events {M} _.

Definition record_event {M : Type} (e : event) (s : machine M) : machine M :=
  {| mmu := mmu s; events := events s ++ [e] |}.

(** The contents of the two locations [base] and [size] point to. *)
Record outputs : Type := { out_base : Z; out_size : Z }.

(** Lines 91 to 94: the memory type chosen from the status word. *)
Definition select_mtype (st : Z) : teecore_memtypes :=
  if negb (Z.land st DT_STATUS_OK_SEC =? 0) && (Z.land st DT_STATUS_OK_NSEC =? 0)
  then MEM_AREA_IO_SEC
  else MEM_AREA_IO_NSEC.

Section MapDevice.
Variable ARM32 : bool.
Context {blob : Type} `{LibFdt blob}.
Context {M : Type} `{CoreMmu M}.

(** Conversion of an [ssize_t] to [size_t]. *)
Definition to_size (x : Z) : Z := wrap (addr_bits ARM32) x.

(** [dt_map_dev(fdt, offs, base, size)]: the result is the returned [int],
    the contents of [*base] and [*size] and the state afterwards. The
    assertion is compiled in. *)
Definition dt_map_dev (fdt : blob) (offs : Z) (out : outputs) (s : machine M)
  : run (Z * outputs * machine M) :=
  if negb (cpu_mmu_enabled (mmu s)) then Stop AssertionFailed
  else
    st <- _fdt_get_status fdt offs ;;
    if st =? DT_STATUS_DISABLED then Ret (-1, out, s)
    else
      pbase <- _fdt_reg_base_address ARM32 fdt offs ;;
      if pbase =? paddr_invalid ARM32 then Ret (-1, out, s)
      else
        sz <- _fdt_reg_size ARM32 fdt offs ;;
        if sz <? 0 then Ret (-1, out, s)
        else
          let mtype := select_mtype st in
          let s := record_event (CallAddMapping mtype pbase (to_size sz)) s in
          let (mapped, m') := core_mmu_add_mapping mtype pbase (to_size sz) (mmu s) in
          let s := {| mmu := m'; events := events s |} in
          if negb mapped then
            Ret (-1, out, record_event (EmsgFailedToMap (to_size sz) pbase) s)
          else
            let s := record_event (CallPhysToVirt pbase mtype) s in
            let vbase := phys_to_virt pbase mtype (mmu s) in
            if vbase =? 0 then
              Ret (-1, out, record_event (EmsgFailedToGetVa pbase) s)
            else
              Ret (0, {| out_base := vbase; out_size := to_size sz |}, s).
End MapDevice.

(* ================================================================== *)
(** * A small blob and a small mapping layer to run the functions on *)

Module Sample.

(** A node of an in-memory tree: the offset of its parent (negative for the
    root), the two cell counts libfdt reports for it, its [compatible]
    strings when it has the property, and its other properties. *)
Record node : Type := {
  parent : Z;
  address_cells : Z;
  size_cells : Z;
  compat : option (list string);
  props : list (string * list byte)
}.

(** The node at offset [i] is the [i]-th of the list. *)
Definition tree : Type := list node.

Definition node_at (t : tree) (offs : Z) : option node :=
  if offs <? 0 then None else nth_error t (Z.to_nat offs).

Fixpoint lookup (key : string) (l : list (string * list byte))
  : option (list byte) :=
  match l with
  | [] => None
  | (k, v) :: l' => if String.eqb k key then Some v else lookup key l'
  end.

Definition getprop (t : tree) (offs : Z) (key : string) : option (list byte) :=
  match node_at t offs with
  | Some n => lookup key (props n)
  | None => None
  end.

(** As libfdt does it: the error of the property lookup when the node has
    no [compatible], else the pattern is measured and searched for, which
    a null pattern does not survive. *)
Definition check_compatible (t : tree) (offs : Z) (pat : option string) : run Z :=
  match node_at t offs with
  | None => Ret (-4)
  | Some n =>
      match compat n with
      | None => Ret (-1)
      | Some strs =>
          match pat with
          | None => Stop NullString
          | Some p => Ret (if existsb (String.eqb p) strs then 0 else 1)
          end
      end
  end.

#[global] Instance tree_LibFdt : LibFdt tree := {|
  fdt_getprop := getprop;
  fdt_parent_offset := fun t offs =>
    match node_at t offs with Some n => parent n | None => -4 end;
  fdt_address_cells := fun t offs =>
    match node_at t offs with Some n => address_cells n | None => -4 end;
  fdt_size_cells := fun t offs =>
    match node_at t offs with Some n => size_cells n | None => -4 end;
  fdt_node_check_compatible := check_compatible
|}.

(** A root with the given cell counts, and its children at offsets 1, 2,
    ... *)
Definition root (ac sc : Z) : node :=
  {| parent := -1; address_cells := ac; size_cells := sc;
     compat := None; props := [] |}.

Definition device (cs : option (list string)) (ps : list (string * list byte))
  : node :=
  {| parent := 0; address_cells := 2; size_cells := 1;
     compat := cs; props := ps |}.

(** The mapping layer: whether the MMU is on, the mappings made, and the
    distance between a physical address and its virtual one. A mapping is
    refused when it overlaps one of the other memory type; an address
    translates when a mapping of the asked type covers it. *)
Record table : Type := {
  enabled : bool;
  mappings : list (teecore_memtypes * Z * Z);
  va_offset : Z
}.

Definition same_type (a b : teecore_memtypes) : bool :=
  match a, b with
  | MEM_AREA_IO_SEC, MEM_AREA_IO_SEC => true
  | MEM_AREA_IO_NSEC, MEM_AREA_IO_NSEC => true
  | _, _ => false
  end.

Definition add_mapping (t : teecore_memtypes) (pa len : Z) (m : table)
  : bool * table :=
  if existsb (fun e => let '(t', pa', len') := e in
                       negb (same_type t t') && (pa <? pa' + len') && (pa' <? pa + len))
             (mappings m)
  then (false, m)
  else (true, {| enabled := enabled m;
                 mappings := (t, pa, len) :: mappings m;
                 va_offset := va_offset m |}).

Definition translate (pa : Z) (t : teecore_memtypes) (m : table) : Z :=
  if existsb (fun e => let '(t', pa', len') := e in
                       same_type t t' && (pa' <=? pa) && (pa <? pa' + len'))
             (mappings m)
  then pa + va_offset m
  else 0.

#[global] Instance table_CoreMmu : CoreMmu table := {|
  cpu_mmu_enabled := enabled;
  core_mmu_add_mapping := add_mapping;
  phys_to_virt := translate
|}.

Definition boot (on : bool) : machine table :=
  {| mmu := {| enabled := on; mappings := []; va_offset := 1073741824 |};
     events := [] |}.

Definition untouched : outputs := {| out_base := 7; out_size := 9 |}.

(** The node of the end-to-end example: no [status], two address cells and
    two size cells, [reg] = <0 0x10000000 0 0x1000>. *)
Definition uart_tree : tree :=
  [ root 2 2;
    device (Some ["vendor,uart"%string])
           [("reg"%string, cells_bytes [0; 268435456; 0; 4096])] ].

(** A node with [status = "disabled"] and no [secure-status]. *)
Definition disabled_tree : tree :=
  [ root 1 1;
    device None [("status"%string, cstr "disabled");
                 ("reg"%string, cells_bytes [268435456; 4096])] ].

(** An enabled node without [reg]. *)
Definition noreg_tree : tree :=
  [ root 1 1; device None [("status"%string, cstr "okay")] ].

(** A secure-only node: [status = "disabled"], [secure-status = "okay"]. *)
Definition secure_tree : tree :=
  [ root 1 1;
    device None [("status"%string, cstr "disabled");
                 ("secure-status"%string, cstr "okay");
                 ("reg"%string, cells_bytes [268435456; 4096])] ].

(** A node whose [status] property is there with the given bytes, and
    likewise for [secure-status]. *)
Definition status_tree (st : list byte) : tree :=
  [ root 1 1;
    device None [("status"%string, st);
                 ("reg"%string, cells_bytes [268435456; 4096])] ].

Definition secure_status_tree (st sst : list byte) : tree :=
  [ root 1 1;
    device None [("status"%string, st);
                 ("secure-status"%string, sst);
                 ("reg"%string, cells_bytes [268435456; 4096])] ].

(** A node with the given cell counts of the parent and [reg] words. *)
Definition reg_tree (ac sc : Z) (ws : list Z) : tree :=
  [ root ac sc; device None [("reg"%string, cells_bytes ws)] ].

(** Two drivers, each with a table of one pattern closed by the null
    entry, and a third one without a table. *)
Definition uart_driver : dt_driver :=
  {| name := "uart";
     match_table := Some [ {| compatible := Some "vendor,uart"%string |};
                           {| compatible := None |} ] |}.

Definition gic_driver : dt_driver :=
  {| name := "gic";
     match_table := Some [ {| compatible := Some "vendor,gic"%string |};
                           {| compatible := None |} ] |}.

Definition bare_driver : dt_driver :=
  {| name := "bare"; match_table := None |}.

(** Nodes to search a driver for: a GIC, and a node no driver knows. *)
Definition gic_tree : tree :=
  [ root 1 1; device (Some ["vendor,gic"%string]) [] ].

Definition unknown_tree : tree :=
  [ root 1 1; device (Some ["vendor,other"%string]) [] ].

Definition plain_tree : tree :=
  [ root 1 1; device None [] ].

End Sample.

(* ================================================================== *)
(** * Notions the properties are stated with *)

(** What [is_okay] answers for a property value and its length. *)
Definition accepted (prop : list byte) : bool :=
  match is_okay prop (prop_len prop) with
  | Ret b => b
  | Stop _ => false
  end.

(** An address function fails when it returns [(paddr_t)-1], and resolves
    to [a] when it returns [a] and [a] is another value. *)
Definition paddr_fails (ARM32 : bool) (r : run Z) : Prop :=
  r = Ret (paddr_invalid ARM32).

Definition paddr_resolves (ARM32 : bool) (r : run Z) (a : Z) : Prop :=
  r = Ret a /\ a <> paddr_invalid ARM32.

(** The [ssize_t] a size cell [w] is returned as. *)
Definition ssize_of_cell (ARM32 : bool) (w : Z) : Z :=
  if ARM32 && (2 ^ 31 <=? w) then w - 2 ^ 32 else w.

(** The memory type a call of the mapping layer asks for. *)
Definition requested_mtype (e : event) : option teecore_memtypes :=
  match e with
  | CallAddMapping t _ _ => Some t
  | CallPhysToVirt _ t => Some t
  | EmsgFailedToMap _ _ => None
  | EmsgFailedToGetVa _ => None
  end.

(** The ways [dt_map_dev] returns: the returned [int], the contents of the
    two output locations and the state afterwards, for each of the six exits
    of the function. *)
Inductive map_dev_return (ARM32 : bool) {blob : Type} `{LibFdt blob}
          {M : Type} `{CoreMmu M} (fdt : blob) (offs : Z)
          (out : outputs) (s : machine M)
  : Z -> outputs -> machine M -> Prop :=
| ReturnDisabled :
    _fdt_get_status fdt offs = Ret DT_STATUS_DISABLED ->
    map_dev_return ARM32 fdt offs out s (-1) out s
| ReturnNoBase (st : Z) :
    _fdt_get_status fdt offs = Ret st -> st <> DT_STATUS_DISABLED ->
    _fdt_reg_base_address ARM32 fdt offs = Ret (paddr_invalid ARM32) ->
    map_dev_return ARM32 fdt offs out s (-1) out s
| ReturnNoSize (st pbase sz : Z) :
    _fdt_get_status fdt offs = Ret st -> st <> DT_STATUS_DISABLED ->
    _fdt_reg_base_address ARM32 fdt offs = Ret pbase ->
    pbase <> paddr_invalid ARM32 ->
    _fdt_reg_size ARM32 fdt offs = Ret sz -> sz < 0 ->
    map_dev_return ARM32 fdt offs out s (-1) out s
| ReturnMapFailed (st pbase sz : Z) (m' : M) :
    _fdt_get_status fdt offs = Ret st -> st <> DT_STATUS_DISABLED ->
    _fdt_reg_base_address ARM32 fdt offs = Ret pbase ->
    pbase <> paddr_invalid ARM32 ->
    _fdt_reg_size ARM32 fdt offs = Ret sz -> 0 <= sz ->
    core_mmu_add_mapping (select_mtype st) pbase sz (mmu s) = (false, m') ->
    map_dev_return ARM32 fdt offs out s (-1) out
      {| mmu := m';
         events := events s ++ [CallAddMapping (select_mtype st) pbase sz;
                                EmsgFailedToMap sz pbase] |}
| ReturnNoVa (st pbase sz : Z) (m' : M) :
    _fdt_get_status fdt offs = Ret st -> st <> DT_STATUS_DISABLED ->
    _fdt_reg_base_address ARM32 fdt offs = Ret pbase ->
    pbase <> paddr_invalid ARM32 ->
    _fdt_reg_size ARM32 fdt offs = Ret sz -> 0 <= sz ->
    core_mmu_add_mapping (select_mtype st) pbase sz (mmu s) = (true, m') ->
    phys_to_virt pbase (select_mtype st) m' = 0 ->
    map_dev_return ARM32 fdt offs out s (-1) out
      {| mmu := m';
         events := events s ++ [CallAddMapping (select_mtype st) pbase sz;
                                CallPhysToVirt pbase (select_mtype st);
                                EmsgFailedToGetVa pbase] |}
| ReturnMapped (st pbase sz : Z) (m' : M) :
    _fdt_get_status fdt offs = Ret st -> st <> DT_STATUS_DISABLED ->
    _fdt_reg_base_address ARM32 fdt offs = Ret pbase ->
    pbase <> paddr_invalid ARM32 ->
    _fdt_reg_size ARM32 fdt offs = Ret sz -> 0 <= sz ->
    core_mmu_add_mapping (select_mtype st) pbase sz (mmu s) = (true, m') ->
    phys_to_virt pbase (select_mtype st) m' <> 0 ->
    map_dev_return ARM32 fdt offs out s 0
      {| out_base := phys_to_virt pbase (select_mtype st) m'; out_size := sz |}
      {| mmu := m';
         events := events s ++ [CallAddMapping (select_mtype st) pbase sz;
                                CallPhysToVirt pbase (select_mtype st)] |}.

(* ================================================================== *)
(** * Bytes and string comparison *)

Ltac break_match :=
  match goal with
  | |- context [match ?x with _ => _ end] => destruct x eqn:?
  | |- context [if ?x then _ else _] => destruct x eqn:?
  end.

Ltac break_match_in H :=
  match type of H with
  | context [match ?x with _ => _ end] => destruct x eqn:?
  | context [if ?x then _ else _] => destruct x eqn:?
  end.

Ltac break_bind_in H :=
  match type of H with
  | context [bind ?c _] => destruct c eqn:?; cbn [bind] in H
  end.

Lemma uchar_range (b : byte) : 0 <= uchar b < 256.
Proof.
  unfold uchar. pose proof (Byte.to_N_bounded b). lia.
Qed.

Lemma uchar_inj (a b : byte) : uchar a = uchar b -> a = b.
Proof.
  unfold uchar. intros E. apply N2Z.inj in E.
  pose proof (Byte.of_to_N a) as Ha. pose proof (Byte.of_to_N b) as Hb.
  rewrite E in Ha. congruence.
Qed.

Lemma uchar_zero (b : byte) : uchar b = 0 <-> b = x00.
Proof.
  split; intros E.
  - apply uchar_inj. exact E.
  - subst b. reflexivity.
Qed.

Lemma strncmp_step (b c : byte) (s1 s2 : list byte) (n : nat) :
  strncmp (b :: s1) (c :: s2) (S n) =
  if negb (uchar b =? uchar c) then Ret (uchar b - uchar c)
  else if uchar b =? 0 then Ret 0
  else strncmp s1 s2 n.
Proof. reflexivity. Qed.

(** A comparison bounded by the length of the first buffer, against a buffer
    that holds a NUL, loads nothing outside of either. *)
Lemma strncmp_returns (n : nat) :
  forall (s1 lit r : list byte),
    (n <= List.length s1)%nat ->
    exists z, strncmp s1 (lit ++ x00 :: r) n = Ret z.
Proof.
  induction n as [|n IH]; intros s1 lit r Hlen.
  - exists 0. reflexivity.
  - destruct s1 as [|b s1]; [simpl in Hlen; lia|].
    destruct lit as [|c lit]; cbn [app]; rewrite strncmp_step.
    + change (uchar x00) with 0.
      destruct (uchar b =? 0) eqn:E; cbn [negb]; eexists; reflexivity.
    + destruct (uchar b =? uchar c) eqn:E; cbn [negb]; [|eexists; reflexivity].
      destruct (uchar b =? 0); [eexists; reflexivity|].
      apply IH. simpl in Hlen. lia.
Qed.

(** On a value that holds a terminated string, within the bound, the
    comparison decides equality of the strings. *)
Lemma strncmp_terminated (s : list byte) :
  forall (lit r1 r2 : list byte) (n : nat),
    Forall (fun b => b <> x00) s ->
    Forall (fun b => b <> x00) lit ->
    (List.length s < n)%nat ->
    exists z, strncmp (s ++ x00 :: r1) (lit ++ x00 :: r2) n = Ret z
              /\ (z = 0 <-> s = lit).
Proof.
  induction s as [|b s IH]; intros lit r1 r2 n Hs Hlit Hn;
    (destruct n as [|n]; [simpl in Hn; lia|]).
  - destruct lit as [|c lit]; cbn [app]; rewrite strncmp_step;
      change (uchar x00) with 0.
    + exists 0. split; [reflexivity|tauto].
    + inversion Hlit as [|? ? Hc _]; subst.
      assert (uchar c <> 0) by (rewrite uchar_zero; exact Hc).
      destruct (0 =? uchar c) eqn:E; [apply Z.eqb_eq in E; lia|]. cbn [negb].
      eexists; split; [reflexivity|]. split; [lia|discriminate].
  - inversion Hs as [|? ? Hb Hs']; subst.
    assert (uchar b <> 0) by (rewrite uchar_zero; exact Hb).
    destruct lit as [|c lit]; cbn [app]; rewrite strncmp_step.
    + change (uchar x00) with 0.
      destruct (uchar b =? 0) eqn:E; [apply Z.eqb_eq in E; lia|]. cbn [negb].
      eexists; split; [reflexivity|]. split; [lia|discriminate].
    + inversion Hlit as [|? ? Hc Hlit']; subst.
      destruct (uchar b =? uchar c) eqn:E; cbn [negb].
      * apply Z.eqb_eq in E. apply uchar_inj in E. subst c.
        destruct (uchar b =? 0) eqn:E0; [apply Z.eqb_eq in E0; lia|].
        destruct (IH lit r1 r2 n Hs' Hlit') as (z & Hz & Hiff);
          [simpl in Hn; lia|].
        exists z. split; [exact Hz|].
        rewrite Hiff. split; [congruence|]. intros E; inversion E; reflexivity.
      * apply Z.eqb_neq in E.
        eexists; split; [reflexivity|]. split; [lia|].
        intros E'; inversion E'; subst; congruence.
Qed.

(** [is_okay] on a property value and its length always returns. *)
Lemma is_okay_returns (st : list byte) :
  exists b, is_okay st (prop_len st) = Ret b.
Proof.
  unfold is_okay, prop_len. rewrite Nat2Z.id.
  destruct (strncmp_returns (List.length st) st (list_byte_of_string "ok") [])
    as (z1 & E1); [lia|].
  destruct (strncmp_returns (List.length st) st (list_byte_of_string "okay") [])
    as (z2 & E2); [lia|].
  unfold cstr. rewrite E1. cbn [bind].
  destruct (z1 =? 0); [eexists; reflexivity|].
  rewrite E2. eexists; reflexivity.
Qed.

(** On a value that holds a terminated string, [is_okay] tells whether the
    string is "ok" or "okay"; the bytes after the terminator do not count. *)
Lemma is_okay_terminated (s r : list byte) :
  Forall (fun b => b <> x00) s ->
  exists b, is_okay (s ++ x00 :: r) (prop_len (s ++ x00 :: r)) = Ret b
            /\ (b = true <->
                s = list_byte_of_string "ok" \/ s = list_byte_of_string "okay").
Proof.
  intros Hs. unfold is_okay, prop_len. rewrite Nat2Z.id.
  assert (Hn : (List.length s < List.length (s ++ x00 :: r))%nat)
    by (rewrite length_app; simpl; lia).
  assert (Hok : Forall (fun b => b <> x00) (list_byte_of_string "ok"))
    by (repeat constructor; discriminate).
  assert (Hokay : Forall (fun b => b <> x00) (list_byte_of_string "okay"))
    by (repeat constructor; discriminate).
  destruct (strncmp_terminated s _ r [] _ Hs Hok Hn) as (z1 & E1 & I1).
  destruct (strncmp_terminated s _ r [] _ Hs Hokay Hn) as (z2 & E2 & I2).
  unfold cstr. rewrite E1. cbn [bind].
  destruct (z1 =? 0) eqn:Z1.
  - exists true. split; [reflexivity|]. apply Z.eqb_eq in Z1. tauto.
  - rewrite E2. cbn [bind]. exists (z2 =? 0). split; [reflexivity|].
    apply Z.eqb_neq in Z1. rewrite Z.eqb_eq. tauto.
Qed.

(** On a value without a NUL, compared over its whole length, the
    comparison tells whether the value is a prefix of the literal. *)
Lemma strncmp_unterminated (s : list byte) :
  forall (lit r : list byte),
    Forall (fun b => b <> x00) s ->
    Forall (fun b => b <> x00) lit ->
    exists z, strncmp s (lit ++ x00 :: r) (List.length s) = Ret z
              /\ (z = 0 <-> exists t, lit = s ++ t).
Proof.
  induction s as [|b s IH]; intros lit r Hs Hlit.
  - exists 0. split; [reflexivity|]. split; [|reflexivity].
    intros _. exists lit. reflexivity.
  - inversion Hs as [|? ? Hb Hs']; subst.
    assert (uchar b <> 0) by (rewrite uchar_zero; exact Hb).
    cbn [List.length].
    destruct lit as [|c lit]; cbn [app]; rewrite strncmp_step.
    + change (uchar x00) with 0.
      destruct (uchar b =? 0) eqn:E; [apply Z.eqb_eq in E; lia|]. cbn [negb].
      eexists; split; [reflexivity|]. split; [lia|].
      intros (t & Ht). discriminate Ht.
    + inversion Hlit as [|? ? Hc Hlit']; subst.
      destruct (uchar b =? uchar c) eqn:E; cbn [negb].
      * apply Z.eqb_eq in E. apply uchar_inj in E. subst c.
        destruct (uchar b =? 0) eqn:E0; [apply Z.eqb_eq in E0; lia|].
        destruct (IH lit r Hs' Hlit') as (z & Hz & Hiff).
        exists z. split; [exact Hz|]. rewrite Hiff.
        split; intros (t & Ht); exists t.
        -- rewrite Ht. reflexivity.
        -- cbn [app] in Ht. injection Ht as Ht. exact Ht.
      * apply Z.eqb_neq in E.
        eexists; split; [reflexivity|]. split; [lia|].
        intros (t & Ht). cbn [app] in Ht. injection Ht as Hbc _.
        subst c. contradiction E. reflexivity.
Qed.

(** On a value without a NUL, [is_okay] answers yes exactly for the prefixes
    of "okay", the empty one included. *)
Lemma is_okay_unterminated (s : list byte) :
  Forall (fun b => b <> x00) s ->
  exists b, is_okay s (prop_len s) = Ret b
            /\ (b = true <-> exists t, list_byte_of_string "okay" = s ++ t).
Proof.
  intros Hs. unfold is_okay, prop_len. rewrite Nat2Z.id.
  assert (Hok : Forall (fun b => b <> x00) (list_byte_of_string "ok"))
    by (repeat constructor; discriminate).
  assert (Hokay : Forall (fun b => b <> x00) (list_byte_of_string "okay"))
    by (repeat constructor; discriminate).
  destruct (strncmp_unterminated s _ [] Hs Hok) as (z1 & E1 & I1).
  destruct (strncmp_unterminated s _ [] Hs Hokay) as (z2 & E2 & I2).
  unfold cstr. rewrite E1. cbn [bind].
  destruct (z1 =? 0) eqn:Z1.
  - exists true. split; [reflexivity|]. split; [|reflexivity]. intros _.
    apply Z.eqb_eq in Z1. apply I1 in Z1. destruct Z1 as (t & Ht).
    exists (t ++ list_byte_of_string "ay").
    rewrite app_assoc, <- Ht. reflexivity.
  - rewrite E2. cbn [bind]. exists (z2 =? 0). split; [reflexivity|].
    rewrite Z.eqb_eq. exact I2.
Qed.

(* ================================================================== *)
(** * Status resolver *)

Section StatusFacts.
Context {blob : Type} `{LibFdt blob}.
Variable fdt : blob.
Variable offs : Z.

(** The status word in terms of what [is_okay] says of the two values. *)
Lemma _fdt_get_status_flags :
  exists st,
    _fdt_get_status fdt offs = Ret st
    /\ nonsecure_ok st = match fdt_getprop fdt offs "status" with
                         | None => true
                         | Some prop => accepted prop
                         end
    /\ secure_ok st = match fdt_getprop fdt offs "secure-status" with
                      | None => nonsecure_ok st
                      | Some prop => accepted prop
                      end
    /\ (st = 0 \/ st = 1 \/ st = 2 \/ st = 3).
Proof.
  unfold _fdt_get_status, accepted.
  destruct (fdt_getprop fdt offs "status") as [p1|];
    destruct (fdt_getprop fdt offs "secure-status") as [p2|];
    try (destruct (is_okay_returns p1) as ([|] & ->));
    try (destruct (is_okay_returns p2) as ([|] & ->));
    cbn; eexists; (split; [reflexivity|]); cbn; intuition auto.
Qed.

Lemma _fdt_get_status_returns :
  exists st, _fdt_get_status fdt offs = Ret st.
Proof.
  destruct _fdt_get_status_flags as (st & E & _). exists st. exact E.
Qed.

(** Without a [status] property the node is enabled for the normal world. *)
Lemma status_absent_is_okay (st : Z) :
  fdt_getprop fdt offs "status" = None ->
  _fdt_get_status fdt offs = Ret st ->
  nonsecure_ok st = true.
Proof.
  intros Habs E. destruct _fdt_get_status_flags as (st' & E' & Hn & _).
  rewrite Habs in Hn. congruence.
Qed.

(** Without a [secure-status] property the secure flag is the normal-world
    flag, whatever [status] is. *)
Lemma secure_status_absent_inherits (st : Z) :
  fdt_getprop fdt offs "secure-status" = None ->
  _fdt_get_status fdt offs = Ret st ->
  secure_ok st = nonsecure_ok st.
Proof.
  intros Habs E. destruct _fdt_get_status_flags as (st' & E' & _ & Hs & _).
  rewrite Habs in Hs. congruence.
Qed.

(** A [status] that holds a terminated string enables the node exactly
    when the string is "ok" or "okay". *)
Lemma status_terminated_string (s r : list byte) (st : Z) :
  Forall (fun b => b <> x00) s ->
  fdt_getprop fdt offs "status" = Some (s ++ x00 :: r) ->
  _fdt_get_status fdt offs = Ret st ->
  (nonsecure_ok st = true <->
   s = list_byte_of_string "ok" \/ s = list_byte_of_string "okay").
Proof.
  intros Hs Hprop E. destruct _fdt_get_status_flags as (st' & E' & Hn & _).
  rewrite Hprop in Hn. assert (st' = st) by congruence. subst st'.
  rewrite Hn. unfold accepted.
  destruct (is_okay_terminated s r Hs) as (b & -> & Hb). exact Hb.
Qed.
End StatusFacts.

(** C2. The claim: [nonsecure_ok] is set exactly when [status] is absent or
    its bytes are exactly "ok" or "okay"; every other present value, a strict
    prefix of them included, clears it. The code at four present values that
    are neither: the empty value, the single byte 'o', the three bytes
    'o' 'k' 'a', and "ok" followed after its terminator by more bytes. Each
    time [_fdt_get_status] returns with [nonsecure_ok] set. *)
Theorem status_value_accepted_beyond_ok_okay :
  Forall (fun v =>
            fdt_getprop (Sample.status_tree v) 1 "status" = Some v
            /\ v <> cstr "ok" /\ v <> cstr "okay"
            /\ v <> list_byte_of_string "ok" /\ v <> list_byte_of_string "okay"
            /\ exists st, _fdt_get_status (Sample.status_tree v) 1 = Ret st
                          /\ nonsecure_ok st = true)
         [ [];
           list_byte_of_string "o";
           list_byte_of_string "oka";
           cstr "ok" ++ cstr "junk" ].
Proof.
  repeat constructor; try discriminate; exists 3; split; reflexivity.
Qed.

(** C3. The claim: with [secure-status] present, [secure_ok] is set iff its
    value is "ok" or "okay". The code at a node with [status = "disabled"]
    and a [secure-status] property of no bytes: the status word is
    [DT_STATUS_OK_SEC] alone, so the node counts as enabled for the secure
    world only. *)
Theorem secure_status_empty_value_accepted :
  fdt_getprop (Sample.secure_status_tree (cstr "disabled") []) 1 "secure-status"
    = Some []
  /\ _fdt_get_status (Sample.secure_status_tree (cstr "disabled") []) 1
     = Ret DT_STATUS_OK_SEC
  /\ secure_ok DT_STATUS_OK_SEC = true
  /\ nonsecure_ok DT_STATUS_OK_SEC = false
  /\ select_mtype DT_STATUS_OK_SEC = MEM_AREA_IO_SEC.
Proof.
  repeat split.
Qed.

(* ================================================================== *)
(** * Cells and integer conversions *)

Lemma lor_range (n a b : Z) :
  0 <= a < 2 ^ n -> 0 <= b < 2 ^ n -> 0 <= Z.lor a b < 2 ^ n.
Proof.
  intros Ha Hb.
  assert (Hnn : 0 <= Z.lor a b) by (apply Z.lor_nonneg; lia).
  split; [exact Hnn|].
  destruct (Z.eq_dec (Z.lor a b) 0) as [E|E]; [lia|].
  destruct (Z.lt_ge_cases n 0) as [Hn|Hn].
  - rewrite Z.pow_neg_r in Ha by lia. lia.
  - apply Z.log2_lt_pow2; [lia|].
    rewrite Z.log2_lor by lia.
    apply Z.max_lub_lt.
    + destruct (Z.eq_dec a 0) as [->|]; [|apply Z.log2_lt_pow2; lia].
      destruct (Z.eq_dec b 0) as [->|]; [contradiction E; reflexivity|].
      assert (Z.log2 b < n) by (apply Z.log2_lt_pow2; lia).
      pose proof (Z.log2_nonneg b). simpl. lia.
    + destruct (Z.eq_dec b 0) as [->|]; [|apply Z.log2_lt_pow2; lia].
      destruct (Z.eq_dec a 0) as [->|]; [contradiction E; reflexivity|].
      assert (Z.log2 a < n) by (apply Z.log2_lt_pow2; lia).
      pose proof (Z.log2_nonneg a). simpl. lia.
Qed.

Lemma fdt32_to_cpu_range (b0 b1 b2 b3 : byte) :
  0 <= fdt32_to_cpu b0 b1 b2 b3 < 2 ^ 32.
Proof.
  unfold fdt32_to_cpu.
  pose proof (uchar_range b0). pose proof (uchar_range b1).
  pose proof (uchar_range b2). pose proof (uchar_range b3).
  repeat apply lor_range; rewrite ?Z.shiftl_mul_pow2 by lia;
    change (2 ^ 32) with 4294967296; change (2 ^ 24) with 16777216;
    change (2 ^ 16) with 65536; change (2 ^ 8) with 256; lia.
Qed.

Lemma load_cell_range (cell : list byte) (w : Z) :
  load_cell cell = Ret w -> 0 <= w < 2 ^ 32.
Proof.
  destruct cell as [|b0 [|b1 [|b2 [|b3 rest]]]]; try discriminate.
  intros E. injection E as <-. apply fdt32_to_cpu_range.
Qed.

(** A load from a property value stops on nothing but the end of the
    value. *)
Lemma load_cell_stop (cell : list byte) (f : fault) :
  load_cell cell = Stop f -> f = ReadOutsideObject.
Proof.
  destruct cell as [|b0 [|b1 [|b2 [|b3 rest]]]]; intros E;
    try discriminate; injection E as <-; reflexivity.
Qed.

(** The encoding of a word is read back as the word. *)
Lemma load_cell_bytes (w : Z) (rest : list byte) :
  0 <= w < 2 ^ 32 -> load_cell (cell_bytes w ++ rest) = Ret w.
Proof.
  intros Hw. unfold cell_bytes, load_cell, fdt32_to_cpu. cbn [map app].
  assert (Hb : forall k, uchar match Byte.of_N (Z.to_N (Z.land (Z.shiftr w k) 255)) with
                               | Some b => b
                               | None => x00
                               end = Z.land (Z.shiftr w k) 255).
  { intros k. change 255 with (Z.ones 8). rewrite Z.land_ones by lia.
    pose proof (Z.mod_pos_bound (Z.shiftr w k) (2 ^ 8) ltac:(lia)) as Hm.
    destruct (Byte.of_N (Z.to_N (Z.shiftr w k mod 2 ^ 8))) as [b|] eqn:E.
    - apply Byte.to_of_N in E. unfold uchar. rewrite E. lia.
    - apply Byte.of_N_None_iff in E. lia. }
  rewrite !Hb. f_equal.
  assert (Hbit : forall k j, 0 <= k ->
            Z.testbit (Z.land (Z.shiftr w k) 255) j
            = ((0 <=? j) && (j <? 8) && Z.testbit w (j + k))%bool).
  { intros k j Hk. destruct (Z.leb_spec 0 j); cbn [andb].
    - change 255 with (Z.ones 8). rewrite Z.land_spec, Z.shiftr_spec by lia.
      destruct (Z.ltb_spec j 8); cbn [andb].
      + rewrite Z.ones_spec_low by lia. apply andb_true_r.
      + rewrite Z.ones_spec_high by lia. apply andb_false_r.
    - apply Z.testbit_neg_r. lia. }
  assert (Hhigh : forall i, 32 <= i -> Z.testbit w i = false).
  { intros i Hi. apply Z.bits_above_log2; [lia|].
    destruct (Z.eq_dec w 0) as [->|]; [cbn; lia|].
    assert (Z.log2 w < 32) by (apply Z.log2_lt_pow2; lia). lia. }
  apply Z.bits_inj'. intros i Hi.
  rewrite !Z.lor_spec, !Z.shiftl_spec, !Hbit by lia.
  replace (i - 24 + 24) with i by lia.
  replace (i - 16 + 16) with i by lia.
  replace (i - 8 + 8) with i by lia.
  rewrite Z.add_0_r.
  destruct (Z.leb_spec 0 (i - 24)); destruct (Z.ltb_spec (i - 24) 8);
    destruct (Z.leb_spec 0 (i - 16)); destruct (Z.ltb_spec (i - 16) 8);
    destruct (Z.leb_spec 0 (i - 8)); destruct (Z.ltb_spec (i - 8) 8);
    destruct (Z.leb_spec 0 i); destruct (Z.ltb_spec i 8);
    try lia; cbn [andb orb]; rewrite ?orb_false_r; try reflexivity.
  symmetry. apply Hhigh. lia.
Qed.

(** Two cells read as one 64-bit value, the first one on top. *)
Lemma concat_cells (hi lo : Z) :
  0 <= hi < 2 ^ 32 -> 0 <= lo < 2 ^ 32 ->
  Z.lor (wrap 64 (Z.shiftl hi 32)) lo = hi * 2 ^ 32 + lo.
Proof.
  intros Hhi Hlo. unfold wrap.
  rewrite Z.shiftl_mul_pow2 by lia.
  rewrite Z.mod_small by lia.
  assert (Hland : Z.land (hi * 2 ^ 32) lo = 0).
  { apply Z.bits_inj'. intros i Hi.
    rewrite Z.land_spec, Z.bits_0.
    destruct (Z.lt_ge_cases i 32).
    - rewrite Z.mul_pow2_bits_low by lia. reflexivity.
    - rewrite (Z.bits_above_log2 lo i); [apply andb_false_r|lia|].
      destruct (Z.eq_dec lo 0) as [->|]; [cbn; lia|].
      assert (Z.log2 lo < 32) by (apply Z.log2_lt_pow2; lia). lia. }
  rewrite <- Z.lxor_lor by exact Hland.
  symmetry. apply Z.add_nocarry_lxor. exact Hland.
Qed.

Lemma sint_range (w x : Z) :
  0 < w -> - 2 ^ (w - 1) <= sint w x < 2 ^ (w - 1).
Proof.
  intros Hw. unfold sint.
  assert (E : 2 ^ w = 2 * 2 ^ (w - 1)).
  { replace w with (Z.succ (w - 1)) at 1 by lia. apply Z.pow_succ_r. lia. }
  pose proof (Z.mod_pos_bound (x + 2 ^ (w - 1)) (2 ^ w) ltac:(lia)). lia.
Qed.

Lemma sint_small (w x : Z) :
  0 < w -> - 2 ^ (w - 1) <= x < 2 ^ (w - 1) -> sint w x = x.
Proof.
  intros Hw Hx. unfold sint.
  assert (E : 2 ^ w = 2 * 2 ^ (w - 1)).
  { replace w with (Z.succ (w - 1)) at 1 by lia. apply Z.pow_succ_r. lia. }
  rewrite Z.mod_small by lia. lia.
Qed.

Lemma to_ssize_paddr_invalid (ARM32 : bool) :
  to_ssize ARM32 (paddr_invalid ARM32) = -1.
Proof. destruct ARM32; reflexivity. Qed.

(** A size cell as an [ssize_t]: itself, except on the 32-bit platform from
    [2^31] on, where it comes out negative. *)
Lemma to_ssize_cell (ARM32 : bool) (w : Z) :
  0 <= w < 2 ^ 32 ->
  to_ssize ARM32 w = if ARM32 && (2 ^ 31 <=? w) then w - 2 ^ 32 else w.
Proof.
  intros Hw. unfold to_ssize, addr_bits.
  destruct ARM32; cbn [andb].
  - destruct (2 ^ 31 <=? w) eqn:E.
    + apply Z.leb_le in E. unfold sint.
      change (2 ^ (32 - 1)) with (2 ^ 31).
      replace (w + 2 ^ 31) with ((w - 2 ^ 31) + 1 * 2 ^ 32) by lia.
      rewrite Z.mod_add by lia. rewrite Z.mod_small by lia. lia.
    + apply Z.leb_gt in E. apply sint_small; [lia|].
      change (2 ^ (32 - 1)) with (2 ^ 31). lia.
  - apply sint_small; [lia|]. change (2 ^ (64 - 1)) with (2 ^ 63). lia.
Qed.

(** A non-negative [ssize_t] converts to the same [size_t]. *)
Lemma to_size_ssize (ARM32 : bool) (x : Z) :
  0 <= to_ssize ARM32 x -> to_size ARM32 (to_ssize ARM32 x) = to_ssize ARM32 x.
Proof.
  intros Hx. unfold to_size, wrap.
  pose proof (sint_range (addr_bits ARM32) x) as Hr.
  unfold to_ssize in *.
  assert (0 < addr_bits ARM32) by (destruct ARM32; cbn; lia).
  specialize (Hr ltac:(lia)).
  assert (2 ^ (addr_bits ARM32 - 1) < 2 ^ addr_bits ARM32)
    by (apply Z.pow_lt_mono_r; lia).
  apply Z.mod_small. lia.
Qed.

(* ================================================================== *)
(** * Address resolver *)

Section ReadPaddr.
Variable ARM32 : bool.

Lemma _fdt_read_paddr_bad_count (cell : list byte) (n : Z) :
  n <> 1 -> n <> 2 -> _fdt_read_paddr ARM32 cell n = Ret (paddr_invalid ARM32).
Proof.
  intros H1 H2. unfold _fdt_read_paddr.
  destruct (n <? 1) eqn:E1; [reflexivity|].
  destruct (n >? 2) eqn:E2; [reflexivity|]. lia.
Qed.

Lemma _fdt_read_paddr_one (cell : list byte) (w : Z) :
  load_cell cell = Ret w ->
  _fdt_read_paddr ARM32 cell 1
  = Ret (if w =? 0 then paddr_invalid ARM32 else w).
Proof.
  intros E. unfold _fdt_read_paddr. rewrite E. cbn.
  destruct (w =? 0); reflexivity.
Qed.

Lemma _fdt_read_paddr_stop (cell : list byte) (n : Z) (f : fault) :
  _fdt_read_paddr ARM32 cell n = Stop f -> f = ReadOutsideObject.
Proof.
  unfold _fdt_read_paddr. intros E.
  repeat (first [break_bind_in E | break_match_in E]; try discriminate);
    injection E as <-;
    repeat match goal with
           | Hl : load_cell _ = Stop _ |- _ => apply load_cell_stop in Hl
           end; congruence.
Qed.
End ReadPaddr.

Lemma _fdt_read_paddr_two_high (cell : list byte) (hi : Z) :
  load_cell cell = Ret hi -> hi <> 0 ->
  _fdt_read_paddr true cell 2 = Ret (paddr_invalid true).
Proof.
  intros E Hhi. unfold _fdt_read_paddr. rewrite E. cbn.
  destruct (hi =? 0) eqn:E0; [apply Z.eqb_eq in E0; lia|reflexivity].
Qed.

Lemma _fdt_read_paddr_two_low (cell : list byte) (lo : Z) :
  load_cell cell = Ret 0 -> load_cell (cell_add cell 1) = Ret lo ->
  _fdt_read_paddr true cell 2 = Ret (if lo =? 0 then paddr_invalid true else lo).
Proof.
  intros E0 E1. unfold _fdt_read_paddr. rewrite E0. cbn [bind].
  cbn -[cell_add load_cell]. rewrite E1. cbn.
  destruct (lo =? 0); reflexivity.
Qed.

Lemma _fdt_read_paddr_two_wide (cell : list byte) (hi lo : Z) :
  load_cell cell = Ret hi -> load_cell (cell_add cell 1) = Ret lo ->
  _fdt_read_paddr false cell 2
  = Ret (if hi * 2 ^ 32 + lo =? 0 then paddr_invalid false
         else hi * 2 ^ 32 + lo).
Proof.
  intros E0 E1. unfold _fdt_read_paddr. rewrite E0. cbn [bind].
  cbn -[cell_add load_cell Z.shiftl Z.lor wrap Z.pow Z.mul Z.add].
  rewrite E1. cbn [bind].
  change (addr_bits false) with 64.
  rewrite concat_cells by eauto using load_cell_range.
  destruct (hi * 2 ^ 32 + lo =? 0); reflexivity.
Qed.

Section RegFacts.
Variable ARM32 : bool.
Context {blob : Type} `{LibFdt blob}.
Variable fdt : blob.
Variable offs : Z.

Lemma _fdt_reg_base_address_stop (f : fault) :
  _fdt_reg_base_address ARM32 fdt offs = Stop f -> f = ReadOutsideObject.
Proof.
  unfold _fdt_reg_base_address. intros E.
  repeat (break_match_in E; try discriminate).
  eapply _fdt_read_paddr_stop. exact E.
Qed.

Lemma _fdt_reg_size_stop (f : fault) :
  _fdt_reg_size ARM32 fdt offs = Stop f -> f = ReadOutsideObject.
Proof.
  unfold _fdt_reg_size. intros E.
  repeat (first [break_bind_in E | break_match_in E]; try discriminate);
    injection E as <-;
    repeat match goal with
           | Hl : load_cell _ = Stop _ |- _ => apply load_cell_stop in Hl
           end; congruence.
Qed.

(** What [_fdt_reg_size] returns is an [ssize_t]. *)
Lemma _fdt_reg_size_range (sz : Z) :
  _fdt_reg_size ARM32 fdt offs = Ret sz ->
  - 2 ^ (addr_bits ARM32 - 1) <= sz < 2 ^ (addr_bits ARM32 - 1).
Proof.
  assert (Hw : 0 < addr_bits ARM32) by (destruct ARM32; cbn; lia).
  assert (Hm : - 2 ^ (addr_bits ARM32 - 1) <= -1 < 2 ^ (addr_bits ARM32 - 1))
    by (destruct ARM32; cbn; lia).
  unfold _fdt_reg_size. intros E.
  repeat (first [break_bind_in E | break_match_in E]; try discriminate);
    injection E as <-; try exact Hm;
    try (rewrite to_ssize_paddr_invalid; exact Hm);
    apply sint_range; exact Hw.
Qed.
End RegFacts.

(** C4, as the code has it. The claim: decoding of the base fails for a cell
    count other than 1 and 2, for two cells with a non-zero first one on the
    32-bit platform, and for a decoded base of zero, and succeeds otherwise.
    It holds with one more failure: a decoded base of all ones is the value
    [(paddr_t)-1] that reports failure. For a node with a parent and a [reg]
    property that holds the cells read, [n] being the address-cell count of
    the parent: *)
Theorem reg_base_address_decoding
    (ARM32 : bool) {blob : Type} `{LibFdt blob} (fdt : blob) (offs : Z)
    (reg : list byte) (n : Z) :
  0 <= fdt_parent_offset fdt offs ->
  fdt_getprop fdt offs "reg" = Some reg ->
  fdt_address_cells fdt (fdt_parent_offset fdt offs) = n ->
  (n <> 1 -> n <> 2 ->
   paddr_fails ARM32 (_fdt_reg_base_address ARM32 fdt offs))
  /\ (n = 1 -> forall w, load_cell reg = Ret w ->
      (w = 0 \/ w = paddr_invalid ARM32 ->
       paddr_fails ARM32 (_fdt_reg_base_address ARM32 fdt offs))
      /\ (w <> 0 -> w <> paddr_invalid ARM32 ->
          paddr_resolves ARM32 (_fdt_reg_base_address ARM32 fdt offs) w))
  /\ (n = 2 -> ARM32 = true -> forall hi, load_cell reg = Ret hi -> hi <> 0 ->
      paddr_fails ARM32 (_fdt_reg_base_address ARM32 fdt offs))
  /\ (n = 2 -> ARM32 = true -> load_cell reg = Ret 0 ->
      forall lo, load_cell (cell_add reg 1) = Ret lo ->
      (lo = 0 \/ lo = paddr_invalid ARM32 ->
       paddr_fails ARM32 (_fdt_reg_base_address ARM32 fdt offs))
      /\ (lo <> 0 -> lo <> paddr_invalid ARM32 ->
          paddr_resolves ARM32 (_fdt_reg_base_address ARM32 fdt offs) lo))
  /\ (n = 2 -> ARM32 = false ->
      forall hi lo, load_cell reg = Ret hi -> load_cell (cell_add reg 1) = Ret lo ->
      (hi * 2 ^ 32 + lo = 0 \/ hi * 2 ^ 32 + lo = paddr_invalid ARM32 ->
       paddr_fails ARM32 (_fdt_reg_base_address ARM32 fdt offs))
      /\ (hi * 2 ^ 32 + lo <> 0 -> hi * 2 ^ 32 + lo <> paddr_invalid ARM32 ->
          paddr_resolves ARM32 (_fdt_reg_base_address ARM32 fdt offs)
                         (hi * 2 ^ 32 + lo))).
Proof.
  intros Hparent Hreg Hn.
  assert (Hbase : _fdt_reg_base_address ARM32 fdt offs
                  = if n <? 0 then Ret (paddr_invalid ARM32)
                    else _fdt_read_paddr ARM32 reg n).
  { unfold _fdt_reg_base_address. rewrite Hreg, Hn.
    destruct (fdt_parent_offset fdt offs <? 0) eqn:E; [|reflexivity].
    apply Z.ltb_lt in E. lia. }
  unfold paddr_fails, paddr_resolves. rewrite Hbase.
  assert (Hzero : forall a, a = 0 \/ a = paddr_invalid ARM32 ->
            Ret (if a =? 0 then paddr_invalid ARM32 else a)
            = Ret (paddr_invalid ARM32)).
  { intros a [->| ->]; [reflexivity|]. destruct (_ =? 0); reflexivity. }
  assert (Hnz : forall a, a <> 0 ->
            Ret (if a =? 0 then paddr_invalid ARM32 else a) = Ret a).
  { intros a Ha. destruct (a =? 0) eqn:E; [|reflexivity].
    apply Z.eqb_eq in E. contradiction. }
  split; [|split; [|split; [|split]]].
  - intros H1 H2. destruct (n <? 0); [reflexivity|].
    apply _fdt_read_paddr_bad_count; assumption.
  - intros -> w Hw. cbn [Z.ltb Z.compare].
    rewrite (_fdt_read_paddr_one _ _ _ Hw).
    split; [apply Hzero|intros Ha Hb; split; [apply Hnz|]; assumption].
  - intros -> -> hi Hhi Hne. cbn [Z.ltb Z.compare].
    apply _fdt_read_paddr_two_high with (hi := hi); assumption.
  - intros -> -> Hhi lo Hlo. cbn [Z.ltb Z.compare].
    rewrite (_fdt_read_paddr_two_low _ _ Hhi Hlo).
    split; [apply Hzero|intros Ha Hb; split; [apply Hnz|]; assumption].
  - intros -> -> hi lo Hhi Hlo. cbn [Z.ltb Z.compare].
    rewrite (_fdt_read_paddr_two_wide _ _ _ Hhi Hlo).
    split; [apply Hzero|intros Ha Hb; split; [apply Hnz|]; assumption].
Qed.

Lemma reg_base_address_decoding_witness :
  0 <= fdt_parent_offset Sample.uart_tree 1
  /\ fdt_getprop Sample.uart_tree 1 "reg"
     = Some (cells_bytes [0; 268435456; 0; 4096])
  /\ fdt_address_cells Sample.uart_tree (fdt_parent_offset Sample.uart_tree 1) = 2
  /\ paddr_resolves false (_fdt_reg_base_address false Sample.uart_tree 1)
                    268435456.
Proof.
  assert (H1 : 0 <= fdt_parent_offset Sample.uart_tree 1)
    by (vm_compute; discriminate).
  assert (H2 : fdt_getprop Sample.uart_tree 1 "reg"
               = Some (cells_bytes [0; 268435456; 0; 4096])) by reflexivity.
  assert (H3 : fdt_address_cells Sample.uart_tree
                 (fdt_parent_offset Sample.uart_tree 1) = 2) by reflexivity.
  split; [exact H1|split; [exact H2|split; [exact H3|]]].
  destruct (reg_base_address_decoding false Sample.uart_tree 1 _ 2 H1 H2 H3)
    as (_ & _ & _ & _ & W).
  apply (W eq_refl eq_refl 0 268435456); try reflexivity;
    vm_compute; discriminate.
Defined.

(** C4, a node the claim is wrong about: on the 32-bit platform, one address
    cell of all ones. The count is 1 and the cell is not zero, so the claim
    has the decoding succeed with the cell as base; the function returns
    [(paddr_t)-1], and [dt_map_dev] gives up on it. Likewise on the 64-bit
    platform for two cells of all ones. *)
Lemma base_all_ones_reported_as_failure :
  (fdt_parent_offset (Sample.reg_tree 1 1 [4294967295; 4096]) 1 = 0
   /\ fdt_getprop (Sample.reg_tree 1 1 [4294967295; 4096]) 1 "reg"
      = Some (cells_bytes [4294967295; 4096])
   /\ fdt_address_cells (Sample.reg_tree 1 1 [4294967295; 4096]) 0 = 1
   /\ load_cell (cells_bytes [4294967295; 4096]) = Ret 4294967295
   /\ paddr_fails true
        (_fdt_reg_base_address true (Sample.reg_tree 1 1 [4294967295; 4096]) 1)
   /\ ~ paddr_resolves true
        (_fdt_reg_base_address true (Sample.reg_tree 1 1 [4294967295; 4096]) 1)
        4294967295
   /\ dt_map_dev true (Sample.reg_tree 1 1 [4294967295; 4096]) 1
        Sample.untouched (Sample.boot true)
      = Ret (-1, Sample.untouched, Sample.boot true))
  /\ (fdt_address_cells (Sample.reg_tree 2 1 [4294967295; 4294967295; 4096]) 0 = 2
      /\ load_cell (cells_bytes [4294967295; 4294967295; 4096]) = Ret 4294967295
      /\ load_cell (cell_add (cells_bytes [4294967295; 4294967295; 4096]) 1)
         = Ret 4294967295
      /\ paddr_fails false
           (_fdt_reg_base_address false
              (Sample.reg_tree 2 1 [4294967295; 4294967295; 4096]) 1)).
Proof.
  repeat split.
  intros [_ Hne]. apply Hne. reflexivity.
Qed.

(** C5, as the code has it. The claim: the size is read after the address
    cells; resolution fails without a parent, without [reg], for a count of
    address or size cells other than 1 and 2, and for two size cells with a
    non-zero first one; otherwise the (low) size cell is returned. It holds,
    for a [reg] that holds the cells read, with the cell returned as an
    [ssize_t]: on the 32-bit platform a cell from [2^31] on comes back as the
    negative number [cell - 2^32]. *)
Theorem reg_size_decoding
    (ARM32 : bool) {blob : Type} `{LibFdt blob} (fdt : blob) (offs : Z)
    (na ns : Z) :
  fdt_address_cells fdt (fdt_parent_offset fdt offs) = na ->
  fdt_size_cells fdt (fdt_parent_offset fdt offs) = ns ->
  (fdt_parent_offset fdt offs < 0 -> _fdt_reg_size ARM32 fdt offs = Ret (-1))
  /\ (fdt_getprop fdt offs "reg" = None ->
      _fdt_reg_size ARM32 fdt offs = Ret (-1))
  /\ (forall reg,
        0 <= fdt_parent_offset fdt offs ->
        fdt_getprop fdt offs "reg" = Some reg ->
        (na <> 1 -> na <> 2 -> _fdt_reg_size ARM32 fdt offs = Ret (-1))
        /\ (ns <> 1 -> ns <> 2 -> _fdt_reg_size ARM32 fdt offs = Ret (-1))
        /\ (na = 1 \/ na = 2 -> ns = 1 ->
            forall w, load_cell (cell_add reg na) = Ret w ->
            _fdt_reg_size ARM32 fdt offs = Ret (ssize_of_cell ARM32 w))
        /\ (na = 1 \/ na = 2 -> ns = 2 ->
            forall hi, load_cell (cell_add reg na) = Ret hi -> hi <> 0 ->
            _fdt_reg_size ARM32 fdt offs = Ret (-1))
        /\ (na = 1 \/ na = 2 -> ns = 2 ->
            load_cell (cell_add reg na) = Ret 0 ->
            forall lo, load_cell (cell_add (cell_add reg na) 1) = Ret lo ->
            _fdt_reg_size ARM32 fdt offs = Ret (ssize_of_cell ARM32 lo))).
Proof.
  intros Hna Hns. unfold _fdt_reg_size. rewrite Hna, Hns.
  split; [|split].
  - intros Hp. apply Z.ltb_lt in Hp. rewrite Hp.
    rewrite to_ssize_paddr_invalid. reflexivity.
  - intros ->. destruct (_ <? 0); [|reflexivity].
    rewrite to_ssize_paddr_invalid. reflexivity.
  - intros reg Hp ->.
    destruct (fdt_parent_offset fdt offs <? 0) eqn:E;
      [apply Z.ltb_lt in E; lia|clear E].
    assert (Hin : forall k, k = 1 \/ k = 2 -> (k <? 1) || (k >? 2) = false)
      by (intros k [->| ->]; reflexivity).
    assert (Hout : forall k, k <> 1 -> k <> 2 -> (k <? 1) || (k >? 2) = true).
    { intros k H1 H2. destruct (k <? 1) eqn:E1; [reflexivity|].
      destruct (k >? 2) eqn:E2; [reflexivity|]. lia. }
    split; [|split; [|split; [|split]]].
    + intros H1 H2. rewrite (Hout na H1 H2). reflexivity.
    + intros H1 H2. rewrite (Hout ns H1 H2).
      destruct ((na <? 1) || (na >? 2)); reflexivity.
    + intros Ha -> w Hw. rewrite (Hin na Ha). cbn -[load_cell cell_add].
      rewrite Hw. cbn [bind].
      rewrite to_ssize_cell by eauto using load_cell_range. reflexivity.
    + intros Ha -> hi Hhi Hne. rewrite (Hin na Ha). cbn -[load_cell cell_add].
      rewrite Hhi. cbn [bind].
      destruct (hi =? 0) eqn:E; [apply Z.eqb_eq in E; lia|reflexivity].
    + intros Ha -> Hhi lo Hlo. rewrite (Hin na Ha). cbn -[load_cell cell_add].
      rewrite Hhi. cbn -[load_cell cell_add]. rewrite Hlo. cbn [bind].
      rewrite to_ssize_cell by eauto using load_cell_range. reflexivity.
Qed.

Lemma reg_size_decoding_witness :
  fdt_address_cells Sample.uart_tree (fdt_parent_offset Sample.uart_tree 1) = 2
  /\ fdt_size_cells Sample.uart_tree (fdt_parent_offset Sample.uart_tree 1) = 2
  /\ _fdt_reg_size false Sample.uart_tree 1 = Ret 4096.
Proof.
  assert (H1 : fdt_address_cells Sample.uart_tree
                 (fdt_parent_offset Sample.uart_tree 1) = 2) by reflexivity.
  assert (H2 : fdt_size_cells Sample.uart_tree
                 (fdt_parent_offset Sample.uart_tree 1) = 2) by reflexivity.
  split; [exact H1|split; [exact H2|]].
  destruct (reg_size_decoding false Sample.uart_tree 1 2 2 H1 H2)
    as (_ & _ & W).
  destruct (W (cells_bytes [0; 268435456; 0; 4096])) as (_ & _ & _ & _ & W2);
    [vm_compute; discriminate|reflexivity|].
  apply (W2 (or_intror eq_refl) eq_refl eq_refl 4096). reflexivity.
Defined.

(** C5, a node the claim is wrong about: on the 32-bit platform, one address
    cell, one size cell of [0x80000000]. None of the failures of the claim
    applies, so it has the size cell returned; the function returns
    [-2147483648], which [dt_map_dev] takes for a failure. *)
Lemma size_top_bit_returned_negative :
  0 <= fdt_parent_offset (Sample.reg_tree 1 1 [268435456; 2147483648]) 1
  /\ fdt_getprop (Sample.reg_tree 1 1 [268435456; 2147483648]) 1 "reg"
     = Some (cells_bytes [268435456; 2147483648])
  /\ fdt_address_cells (Sample.reg_tree 1 1 [268435456; 2147483648]) 0 = 1
  /\ fdt_size_cells (Sample.reg_tree 1 1 [268435456; 2147483648]) 0 = 1
  /\ load_cell (cell_add (cells_bytes [268435456; 2147483648]) 1)
     = Ret 2147483648
  /\ _fdt_reg_size true (Sample.reg_tree 1 1 [268435456; 2147483648]) 1
     = Ret (-2147483648)
  /\ _fdt_reg_size true (Sample.reg_tree 1 1 [268435456; 2147483648]) 1
     <> Ret 2147483648
  /\ dt_map_dev true (Sample.reg_tree 1 1 [268435456; 2147483648]) 1
       Sample.untouched (Sample.boot true)
     = Ret (-1, Sample.untouched, Sample.boot true).
Proof.
  repeat split; vm_compute; discriminate.
Qed.

(* ================================================================== *)
(** * Compatibility matcher *)

Section MatcherFacts.
Context {blob : Type} `{LibFdt blob}.
Variable fdt : blob.
Variable offs : Z.

(** From a non-null [dm] the inner loop is never left through its test: it
    ends with [return drv] or on a fault. *)
Lemma match_loop_no_exit (dm : list dt_device_match) :
  match_loop fdt offs dm <> Ret false.
Proof.
  induction dm as [|m dm IH]; cbn [match_loop]; [discriminate|].
  destruct (fdt_node_check_compatible fdt offs (compatible m)) as [r|f];
    cbn [bind]; [|discriminate].
  destruct (r =? 0); [discriminate|exact IH].
Qed.

(** When no element of the array is reported compatible, the loop goes on
    until a fault stops it. *)
Lemma match_loop_no_match (dm : list dt_device_match) :
  Forall (fun m => fdt_node_check_compatible fdt offs (compatible m) <> Ret 0)
         dm ->
  exists f, match_loop fdt offs dm = Stop f.
Proof.
  induction 1 as [|m dm Hm _ IH]; cbn [match_loop]; [eexists; reflexivity|].
  destruct (fdt_node_check_compatible fdt offs (compatible m)) as [r|f];
    cbn [bind]; [|eexists; reflexivity].
  destruct (r =? 0) eqn:E; [|exact IH].
  apply Z.eqb_eq in E. subst r. contradiction.
Qed.

(** The loop returns at the first element reported compatible, when those
    before it are reported not to be. *)
Lemma match_loop_first_match (pre post : list dt_device_match)
      (m : dt_device_match) :
  Forall (fun m' => exists r, r <> 0 /\
            fdt_node_check_compatible fdt offs (compatible m') = Ret r) pre ->
  fdt_node_check_compatible fdt offs (compatible m) = Ret 0 ->
  match_loop fdt offs (pre ++ m :: post) = Ret true.
Proof.
  intros Hpre Hm. induction Hpre as [|m' pre (r & Hr & E) _ IH];
    cbn [app match_loop].
  - rewrite Hm. reflexivity.
  - rewrite E. cbn [bind].
    destruct (r =? 0) eqn:E0; [apply Z.eqb_eq in E0; contradiction|exact IH].
Qed.

(** "Not found" is returned only for a registry in which no descriptor has
    a table. *)
Lemma find_none_only_without_tables (registry : list dt_driver) :
  dt_find_compatible_driver fdt offs registry = Ret None ->
  Forall (fun drv => match_table drv = None) registry.
Proof.
  induction registry as [|drv rest IH]; cbn [dt_find_compatible_driver];
    intros E; [constructor|].
  unfold scan_match_table in E.
  destruct (match_table drv) as [dm|] eqn:Et.
  - pose proof (match_loop_no_exit dm) as Hne.
    destruct (match_loop fdt offs dm) as [[|]|f]; cbn [bind] in E;
      try discriminate. contradiction.
  - cbn [bind] in E. constructor; [exact Et|apply IH; exact E].
Qed.

(** Descriptors without a table are passed over, and the first one with a
    table is returned when an element of its table matches before any
    fault. *)
Lemma find_first_with_table (skipped rest : list dt_driver) (drv : dt_driver)
      (pre post : list dt_device_match) (m : dt_device_match) :
  Forall (fun d => match_table d = None) skipped ->
  match_table drv = Some (pre ++ m :: post) ->
  Forall (fun m' => exists r, r <> 0 /\
            fdt_node_check_compatible fdt offs (compatible m') = Ret r) pre ->
  fdt_node_check_compatible fdt offs (compatible m) = Ret 0 ->
  dt_find_compatible_driver fdt offs (skipped ++ drv :: rest) = Ret (Some drv).
Proof.
  intros Hskip Ht Hpre Hm.
  induction Hskip as [|d skipped Hd _ IH];
    cbn [app dt_find_compatible_driver]; unfold scan_match_table.
  - rewrite Ht, (match_loop_first_match pre post m Hpre Hm). reflexivity.
  - rewrite Hd. cbn [bind]. exact IH.
Qed.
End MatcherFacts.

(** C6. The claim: the first descriptor in registration order with a
    matching pattern is returned, and "not found" when none matches. The
    code, for a registry of the UART driver followed by the GIC driver, each
    with a table of one pattern and the closing null entry:
    - on a GIC node the claim has the GIC driver returned, the code passes
      the null entry of the UART table to [fdt_node_check_compatible];
    - on a node of another device, and on a node without [compatible], the
      claim has "not found" returned, the code passes the null entry on, or
      reads behind the table;
    - with the GIC driver first, the GIC node gets it. *)
Theorem find_driver_stops_in_first_table :
  dt_find_compatible_driver Sample.gic_tree 1
    [Sample.uart_driver; Sample.gic_driver] = Stop NullString
  /\ dt_find_compatible_driver Sample.unknown_tree 1
       [Sample.uart_driver; Sample.gic_driver] = Stop NullString
  /\ dt_find_compatible_driver Sample.plain_tree 1
       [Sample.uart_driver; Sample.gic_driver] = Stop ReadOutsideObject
  /\ dt_find_compatible_driver Sample.gic_tree 1
       [Sample.gic_driver; Sample.uart_driver] = Ret (Some Sample.gic_driver).
Proof.
  repeat split.
Qed.

(** C7. The claim: the scan over the pattern list of a descriptor is bounded
    and ends, also when no pattern matches. The code: for a descriptor with
    a table, whatever the blob and the node, the scan is not left through
    the loop test, and when no element is reported compatible it runs until
    a fault stops it, the null entry that closes the table not being looked
    at by the test. *)
Theorem match_scan_not_bounded_by_table
    {blob : Type} `{LibFdt blob} (fdt : blob) (offs : Z)
    (drv : dt_driver) (dm : list dt_device_match) :
  match_table drv = Some dm ->
  scan_match_table fdt offs drv <> Ret false
  /\ (Forall (fun m => fdt_node_check_compatible fdt offs (compatible m) <> Ret 0)
             dm ->
      exists f, scan_match_table fdt offs drv = Stop f).
Proof.
  intros Ht. unfold scan_match_table. rewrite Ht. split.
  - apply match_loop_no_exit.
  - apply match_loop_no_match.
Qed.

Lemma match_scan_not_bounded_by_table_witness :
  match_table Sample.uart_driver
  = Some [ {| compatible := Some "vendor,uart"%string |};
           {| compatible := None |} ]
  /\ scan_match_table Sample.unknown_tree 1 Sample.uart_driver <> Ret false
  /\ exists f, scan_match_table Sample.unknown_tree 1 Sample.uart_driver = Stop f.
Proof.
  split; [reflexivity|].
  destruct (match_scan_not_bounded_by_table Sample.unknown_tree 1
              Sample.uart_driver _ eq_refl) as (W1 & W2).
  split; [exact W1|].
  apply W2. repeat constructor; vm_compute; discriminate.
Defined.

(* ================================================================== *)
(** * [dt_map_dev] *)

(** The four combinations of the two flags. *)
Lemma select_mtype_secure (st : Z) :
  select_mtype st = MEM_AREA_IO_SEC <->
  secure_ok st = true /\ nonsecure_ok st = false.
Proof.
  unfold select_mtype, secure_ok, nonsecure_ok.
  destruct (Z.land st DT_STATUS_OK_SEC =? 0);
    destruct (Z.land st DT_STATUS_OK_NSEC =? 0); cbn;
    intuition discriminate.
Qed.


Lemma to_size_small (ARM32 : bool) (x : Z) :
  0 <= x < 2 ^ (addr_bits ARM32 - 1) -> to_size ARM32 x = x.
Proof.
  intros Hx. unfold to_size, wrap. apply Z.mod_small.
  assert (2 ^ (addr_bits ARM32 - 1) < 2 ^ addr_bits ARM32)
    by (destruct ARM32; cbn; lia).
  lia.
Qed.

Section MapDeviceFacts.
Variable ARM32 : bool.
Context {blob : Type} `{LibFdt blob}.
Context {M : Type} `{CoreMmu M}.
Variable fdt : blob.
Variable offs : Z.

(** Every return of [dt_map_dev] is one of the six. *)
Lemma dt_map_dev_returns (out out' : outputs) (s s' : machine M) (r : Z) :
  dt_map_dev ARM32 fdt offs out s = Ret (r, out', s') ->
  cpu_mmu_enabled (mmu s) = true
  /\ map_dev_return ARM32 fdt offs out s r out' s'.
Proof.
  unfold dt_map_dev. intros E.
  destruct (cpu_mmu_enabled (mmu s)) eqn:Hen; cbn [negb] in E;
    [|discriminate].
  split; [reflexivity|].
  destruct (_fdt_get_status fdt offs) as [st|] eqn:Est; cbn [bind] in E;
    [|discriminate].
  destruct (st =? DT_STATUS_DISABLED) eqn:Hst.
  { apply Z.eqb_eq in Hst. injection E as <- <- <-. subst st.
    apply ReturnDisabled. exact Est. }
  apply Z.eqb_neq in Hst.
  destruct (_fdt_reg_base_address ARM32 fdt offs) as [pbase|] eqn:Eb;
    cbn [bind] in E; [|discriminate].
  destruct (pbase =? paddr_invalid ARM32) eqn:Hpb.
  { apply Z.eqb_eq in Hpb. injection E as <- <- <-. subst pbase.
    eapply ReturnNoBase; eassumption. }
  apply Z.eqb_neq in Hpb.
  destruct (_fdt_reg_size ARM32 fdt offs) as [sz|] eqn:Es;
    cbn [bind] in E; [|discriminate].
  destruct (sz <? 0) eqn:Hsz.
  { apply Z.ltb_lt in Hsz. injection E as <- <- <-.
    eapply ReturnNoSize; eassumption. }
  apply Z.ltb_ge in Hsz.
  assert (Hto : to_size ARM32 sz = sz).
  { apply to_size_small. pose proof (_fdt_reg_size_range ARM32 fdt offs sz Es).
    lia. }
  rewrite Hto in E. cbn [record_event mmu events] in E.
  destruct (core_mmu_add_mapping (select_mtype st) pbase sz (mmu s))
    as [mapped m'] eqn:Em.
  destruct mapped; cbn [negb] in E.
  - destruct (phys_to_virt pbase (select_mtype st) m' =? 0) eqn:Hv.
    + apply Z.eqb_eq in Hv. injection E as <- <- <-.
      unfold record_event. cbn [mmu events].
      rewrite <- !app_assoc. cbn [app].
      eapply ReturnNoVa; eassumption.
    + apply Z.eqb_neq in Hv. injection E as <- <- <-.
      unfold record_event. cbn [mmu events].
      rewrite <- !app_assoc. cbn [app].
      eapply ReturnMapped; eassumption.
  - injection E as <- <- <-.
    unfold record_event. cbn [mmu events].
    rewrite <- !app_assoc. cbn [app].
    eapply ReturnMapFailed; eassumption.
Qed.
End MapDeviceFacts.



(** The status word is [DT_STATUS_DISABLED] when neither flag is set. *)
Lemma status_disabled_flags {blob : Type} `{LibFdt blob} (fdt : blob)
      (offs st : Z) :
  _fdt_get_status fdt offs = Ret st ->
  (st = DT_STATUS_DISABLED <-> nonsecure_ok st = false /\ secure_ok st = false).
Proof.
  intros E. destruct (_fdt_get_status_flags fdt offs) as (st' & E' & _ & _ & Hst).
  assert (st' = st) by congruence. subst st'.
  destruct Hst as [->|[->|[->| ->]]]; cbn; intuition discriminate.
Qed.

(** C8, a pair of nodes the claim is wrong about: one is disabled
    ([status = "disabled"], no [secure-status]), the other is enabled and has
    no [reg], which is an error. The claim has the two outcomes differ;
    [dt_map_dev] returns the same for both. *)
Lemma disabled_return_equals_error_return :
  _fdt_get_status Sample.disabled_tree 1 = Ret DT_STATUS_DISABLED
  /\ _fdt_get_status Sample.noreg_tree 1
     = Ret (Z.lor DT_STATUS_OK_NSEC DT_STATUS_OK_SEC)
  /\ _fdt_reg_base_address false Sample.noreg_tree 1 = Ret (paddr_invalid false)
  /\ dt_map_dev false Sample.disabled_tree 1 Sample.untouched (Sample.boot true)
     = Ret (-1, Sample.untouched, Sample.boot true)
  /\ dt_map_dev false Sample.noreg_tree 1 Sample.untouched (Sample.boot true)
     = dt_map_dev false Sample.disabled_tree 1 Sample.untouched
         (Sample.boot true).
Proof.
  repeat split.
Qed.

(** C8, as the code has it. For a node whose status has neither flag set,
    [dt_map_dev] returns -1 and leaves the outputs and the state as they
    were: no mapping is asked for, no address translated, nothing logged.
    -1 is also what every other failing return gives. *)
Theorem disabled_node_not_mapped
    (ARM32 : bool) {blob : Type} `{LibFdt blob} {M : Type} `{CoreMmu M}
    (fdt : blob) (offs : Z) (out : outputs) (s : machine M) (st : Z) :
  cpu_mmu_enabled (mmu s) = true ->
  _fdt_get_status fdt offs = Ret st ->
  nonsecure_ok st = false ->
  secure_ok st = false ->
  dt_map_dev ARM32 fdt offs out s = Ret (-1, out, s)
  /\ (forall (fdt' : blob) (offs' : Z) (out1 out2 : outputs)
             (s1 s2 : machine M) (r : Z),
        dt_map_dev ARM32 fdt' offs' out1 s1 = Ret (r, out2, s2) ->
        r <> 0 -> r = -1).
Proof.
  intros Hen Est Hn Hs. split.
  - assert (Hd : st = DT_STATUS_DISABLED)
      by (apply (status_disabled_flags fdt offs st Est); split; assumption).
    subst st. unfold dt_map_dev. rewrite Hen, Est. reflexivity.
  - intros fdt' offs' out1 out2 s1 s2 r E Hr.
    apply dt_map_dev_returns in E. destruct E as (_ & E).
    inversion E; subst; try reflexivity. contradiction.
Qed.

Lemma disabled_node_not_mapped_witness :
  cpu_mmu_enabled (mmu (Sample.boot true)) = true
  /\ _fdt_get_status Sample.disabled_tree 1 = Ret 0
  /\ nonsecure_ok 0 = false
  /\ secure_ok 0 = false
  /\ dt_map_dev true Sample.disabled_tree 1 Sample.untouched (Sample.boot true)
     = Ret (-1, Sample.untouched, Sample.boot true).
Proof.
  assert (H1 : cpu_mmu_enabled (mmu (Sample.boot true)) = true) by reflexivity.
  assert (H2 : _fdt_get_status Sample.disabled_tree 1 = Ret 0) by reflexivity.
  assert (H3 : nonsecure_ok 0 = false) by reflexivity.
  assert (H4 : secure_ok 0 = false) by reflexivity.
  split; [exact H1|split; [exact H2|split; [exact H3|split; [exact H4|]]]].
  exact (proj1 (disabled_node_not_mapped true Sample.disabled_tree 1
                  Sample.untouched (Sample.boot true) 0 H1 H2 H3 H4)).
Defined.

(** C9. [dt_map_dev] stops on its assertion exactly when the MMU is not
    enabled: called before, it does not return at all (there is no error
    code for it), and called with the MMU enabled the assertion does not
    fail. *)
Theorem mmu_enabled_assertion
    (ARM32 : bool) {blob : Type} `{LibFdt blob} {M : Type} `{CoreMmu M}
    (fdt : blob) (offs : Z) (out : outputs) (s : machine M) :
  (cpu_mmu_enabled (mmu s) = false ->
   dt_map_dev ARM32 fdt offs out s = Stop AssertionFailed)
  /\ (cpu_mmu_enabled (mmu s) = true ->
      dt_map_dev ARM32 fdt offs out s <> Stop AssertionFailed).
Proof.
  split; intros Hen; unfold dt_map_dev; rewrite Hen; cbn [negb];
    [reflexivity|].
  intros E.
  destruct (_fdt_get_status_returns fdt offs) as (st & Est).
  rewrite Est in E. cbn [bind] in E.
  destruct (st =? DT_STATUS_DISABLED); [discriminate|].
  destruct (_fdt_reg_base_address ARM32 fdt offs) as [pbase|f] eqn:Eb;
    cbn [bind] in E.
  2:{ apply _fdt_reg_base_address_stop in Eb. congruence. }
  destruct (pbase =? paddr_invalid ARM32); [discriminate|].
  destruct (_fdt_reg_size ARM32 fdt offs) as [sz|f] eqn:Es; cbn [bind] in E.
  2:{ apply _fdt_reg_size_stop in Es. congruence. }
  repeat (break_match_in E; try discriminate).
Qed.

Lemma mmu_enabled_assertion_witness :
  cpu_mmu_enabled (mmu (Sample.boot false)) = false
  /\ dt_map_dev false Sample.uart_tree 1 Sample.untouched (Sample.boot false)
     = Stop AssertionFailed.
Proof.
  assert (H1 : cpu_mmu_enabled (mmu (Sample.boot false)) = false)
    by reflexivity.
  split; [exact H1|].
  exact (proj1 (mmu_enabled_assertion false Sample.uart_tree 1
                  Sample.untouched (Sample.boot false)) H1).
Defined.

(** C10. When [dt_map_dev] returns a failure, whichever it is, what [base]
    and [size] point to is as before the call; they are written on the
    successful return only, and then both: the virtual address the
    translation gave and the size read from [reg]. Success implies that the
    node is not disabled, that base and size resolved, that the mapping was
    made and that the address translated. *)
Theorem outputs_written_on_success_only
    (ARM32 : bool) {blob : Type} `{LibFdt blob} {M : Type} `{CoreMmu M}
    (fdt : blob) (offs : Z) (out out' : outputs) (s s' : machine M) (r : Z) :
  dt_map_dev ARM32 fdt offs out s = Ret (r, out', s') ->
  (r = 0 \/ r = -1)
  /\ (r <> 0 -> out' = out)
  /\ (r = 0 ->
      exists st pbase sz,
        _fdt_get_status fdt offs = Ret st /\ st <> DT_STATUS_DISABLED
        /\ _fdt_reg_base_address ARM32 fdt offs = Ret pbase
        /\ pbase <> paddr_invalid ARM32
        /\ _fdt_reg_size ARM32 fdt offs = Ret sz /\ 0 <= sz
        /\ core_mmu_add_mapping (select_mtype st) pbase sz (mmu s)
           = (true, mmu s')
        /\ phys_to_virt pbase (select_mtype st) (mmu s') <> 0
        /\ out_base out' = phys_to_virt pbase (select_mtype st) (mmu s')
        /\ out_size out' = sz).
Proof.
  intros E. apply dt_map_dev_returns in E. destruct E as (_ & E).
  inversion E; subst; (split; [auto|]); (split; [reflexivity || contradiction|]);
    try (intros Hr; discriminate Hr).
  intros _. exists st, pbase, sz. cbn [mmu out_base out_size]. auto 12.
Qed.

Lemma outputs_written_on_success_only_witness :
  dt_map_dev false Sample.uart_tree 1 Sample.untouched (Sample.boot true)
  = Ret (0, {| out_base := 1342177280; out_size := 4096 |},
         {| mmu := {| Sample.enabled := true;
                      Sample.mappings := [(MEM_AREA_IO_NSEC, 268435456, 4096)];
                      Sample.va_offset := 1073741824 |};
            events := [CallAddMapping MEM_AREA_IO_NSEC 268435456 4096;
                       CallPhysToVirt 268435456 MEM_AREA_IO_NSEC] |})
  /\ (0 = 0 \/ 0 = -1)
  /\ (0 <> 0 -> {| out_base := 1342177280; out_size := 4096 |} = Sample.untouched).
Proof.
  assert (H1 : dt_map_dev false Sample.uart_tree 1 Sample.untouched
                 (Sample.boot true)
               = Ret (0, {| out_base := 1342177280; out_size := 4096 |},
                      {| mmu := {| Sample.enabled := true;
                                   Sample.mappings :=
                                     [(MEM_AREA_IO_NSEC, 268435456, 4096)];
                                   Sample.va_offset := 1073741824 |};
                         events := [CallAddMapping MEM_AREA_IO_NSEC 268435456 4096;
                                    CallPhysToVirt 268435456 MEM_AREA_IO_NSEC] |}))
    by reflexivity.
  split; [exact H1|].
  destruct (outputs_written_on_success_only false Sample.uart_tree 1
              _ _ _ _ _ H1) as (W1 & W2 & _).
  split; [exact W1|exact W2].
Defined.

(** The end-to-end example of the design description: no [status], [reg] =
    <0 0x10000000 0 0x1000> under two address and two size cells resolves to
    base 0x10000000 and size 0x1000, and is mapped as non-secure I/O. *)
Example end_to_end_uart :
  _fdt_get_status Sample.uart_tree 1
  = Ret (Z.lor DT_STATUS_OK_NSEC DT_STATUS_OK_SEC)
  /\ _fdt_reg_base_address false Sample.uart_tree 1 = Ret 268435456
  /\ _fdt_reg_size false Sample.uart_tree 1 = Ret 4096
  /\ exists out s,
      dt_map_dev false Sample.uart_tree 1 Sample.untouched (Sample.boot true)
      = Ret (0, out, s)
      /\ events s = [CallAddMapping MEM_AREA_IO_NSEC 268435456 4096;
                     CallPhysToVirt 268435456 MEM_AREA_IO_NSEC].
Proof.
  repeat split. eexists. eexists. split; reflexivity.
Qed.


(* ================================================================== *)
(** * Further properties of the status resolver *)

(** X1. [is_okay], called as [_fdt_get_status] calls it, with a property
    value and its stored length, loads no byte outside the value or the two
    literals, and returns. *)
Theorem is_okay_stays_within_value (st : list byte) :
  exists b, is_okay st (prop_len st) = Ret b.
Proof.
  exact (is_okay_returns st).
Qed.

(** X2. On a value that holds a string ended by a NUL, [is_okay] answers yes
    exactly when the string is "ok" or "okay"; what follows the NUL in the
    value does not count. *)
Theorem is_okay_decides_terminated_strings (s r : list byte) :
  Forall (fun b => b <> x00) s ->
  exists b, is_okay (s ++ x00 :: r) (prop_len (s ++ x00 :: r)) = Ret b
            /\ (b = true <->
                s = list_byte_of_string "ok" \/ s = list_byte_of_string "okay").
Proof.
  exact (is_okay_terminated s r).
Qed.

Lemma is_okay_decides_terminated_strings_witness :
  Forall (fun b => b <> x00) (list_byte_of_string "okay")
  /\ exists b, is_okay (cstr "okay") (prop_len (cstr "okay")) = Ret b
               /\ (b = true <->
                   list_byte_of_string "okay" = list_byte_of_string "ok"
                   \/ list_byte_of_string "okay" = list_byte_of_string "okay").
Proof.
  assert (H1 : Forall (fun b => b <> x00) (list_byte_of_string "okay"))
    by (repeat constructor; discriminate).
  split; [exact H1|].
  exact (is_okay_decides_terminated_strings (list_byte_of_string "okay") [] H1).
Defined.

(** X3. On a value without any NUL, [is_okay] answers yes exactly when the
    value is a prefix of "okay": the comparison is cut at the stored length,
    so the empty value, "o", "ok", "oka" and "okay" pass. *)
Theorem is_okay_accepts_prefixes (s : list byte) :
  Forall (fun b => b <> x00) s ->
  exists b, is_okay s (prop_len s) = Ret b
            /\ (b = true <-> exists t, list_byte_of_string "okay" = s ++ t).
Proof.
  exact (is_okay_unterminated s).
Qed.

Lemma is_okay_accepts_prefixes_witness :
  Forall (fun b => b <> x00) (list_byte_of_string "oka")
  /\ exists b, is_okay (list_byte_of_string "oka")
                       (prop_len (list_byte_of_string "oka")) = Ret b
               /\ (b = true <->
                   exists t, list_byte_of_string "okay"
                             = list_byte_of_string "oka" ++ t).
Proof.
  assert (H1 : Forall (fun b => b <> x00) (list_byte_of_string "oka"))
    by (repeat constructor; discriminate).
  split; [exact H1|].
  exact (is_okay_accepts_prefixes (list_byte_of_string "oka") H1).
Defined.

(** X4. [_fdt_get_status] returns for every node, with one of the four
    status words: disabled, normal world only, secure world only, both; no
    other bit is ever set, and the word is [DT_STATUS_DISABLED] exactly when
    neither flag is. *)
Theorem status_word_is_a_flag_set
    {blob : Type} `{LibFdt blob} (fdt : blob) (offs : Z) :
  exists st,
    _fdt_get_status fdt offs = Ret st
    /\ (st = DT_STATUS_DISABLED \/ st = DT_STATUS_OK_NSEC
        \/ st = DT_STATUS_OK_SEC
        \/ st = Z.lor DT_STATUS_OK_NSEC DT_STATUS_OK_SEC)
    /\ (st = DT_STATUS_DISABLED <->
        nonsecure_ok st = false /\ secure_ok st = false).
Proof.
  destruct (_fdt_get_status_flags fdt offs) as (st & E & _ & _ & Hst).
  exists st. split; [exact E|]. split.
  - destruct Hst as [->|[->|[->| ->]]]; auto.
  - apply (status_disabled_flags fdt offs st E).
Qed.

(** X5. A node for which [dt_have_prop] finds no [status] is enabled for the
    normal world; if it has no [secure-status] either, it is enabled for
    both worlds. *)
Theorem status_missing_means_enabled
    {blob : Type} `{LibFdt blob} (fdt : blob) (offs : Z) :
  dt_have_prop fdt offs "status" = false ->
  (exists st, _fdt_get_status fdt offs = Ret st /\ nonsecure_ok st = true)
  /\ (dt_have_prop fdt offs "secure-status" = false ->
      _fdt_get_status fdt offs
      = Ret (Z.lor DT_STATUS_OK_NSEC DT_STATUS_OK_SEC)).
Proof.
  unfold dt_have_prop. intros Hs.
  destruct (fdt_getprop fdt offs "status") as [p|] eqn:Es; [discriminate|].
  split.
  - destruct (_fdt_get_status_returns fdt offs) as (st & E).
    exists st. split; [exact E|].
    exact (status_absent_is_okay fdt offs st Es E).
  - intros Hss.
    destruct (fdt_getprop fdt offs "secure-status") as [q|] eqn:Ess;
      [discriminate|].
    unfold _fdt_get_status. rewrite Es, Ess. reflexivity.
Qed.

Lemma status_missing_means_enabled_witness :
  dt_have_prop Sample.uart_tree 1 "status" = false
  /\ exists st, _fdt_get_status Sample.uart_tree 1 = Ret st
                /\ nonsecure_ok st = true.
Proof.
  assert (H1 : dt_have_prop Sample.uart_tree 1 "status" = false)
    by reflexivity.
  split; [exact H1|].
  exact (proj1 (status_missing_means_enabled Sample.uart_tree 1 H1)).
Defined.

(** X6. For a node for which [dt_have_prop] finds no [secure-status], the
    secure flag of the status word is the normal-world flag, whatever the
    [status] property holds. *)
Theorem secure_status_missing_copies_status
    {blob : Type} `{LibFdt blob} (fdt : blob) (offs : Z) :
  dt_have_prop fdt offs "secure-status" = false ->
  exists st, _fdt_get_status fdt offs = Ret st
             /\ secure_ok st = nonsecure_ok st
             /\ (st = DT_STATUS_DISABLED
                 \/ st = Z.lor DT_STATUS_OK_NSEC DT_STATUS_OK_SEC).
Proof.
  unfold dt_have_prop. intros Hs.
  destruct (fdt_getprop fdt offs "secure-status") as [p|] eqn:Es;
    [discriminate|].
  destruct (_fdt_get_status_flags fdt offs) as (st & E & _ & Hsec & Hst).
  rewrite Es in Hsec.
  exists st. split; [exact E|]. split; [exact Hsec|].
  destruct Hst as [->|[->|[->| ->]]]; auto; discriminate Hsec.
Qed.

Lemma secure_status_missing_copies_status_witness :
  dt_have_prop Sample.disabled_tree 1 "secure-status" = false
  /\ exists st, _fdt_get_status Sample.disabled_tree 1 = Ret st
                /\ secure_ok st = nonsecure_ok st
                /\ (st = DT_STATUS_DISABLED
                    \/ st = Z.lor DT_STATUS_OK_NSEC DT_STATUS_OK_SEC).
Proof.
  assert (H1 : dt_have_prop Sample.disabled_tree 1 "secure-status" = false)
    by reflexivity.
  split; [exact H1|].
  exact (secure_status_missing_copies_status Sample.disabled_tree 1 H1).
Defined.

(** X7. The status of a node selects the secure memory type only when the
    node has both properties, [is_okay] rejecting the value of [status] and
    accepting that of [secure-status]. For a node that lacks either one,
    [dt_map_dev] never asks for a secure mapping: either it returns -1 and
    has called nothing, or the mapping layer is called for non-secure I/O,
    the state afterwards being the one [core_mmu_add_mapping] gives for
    [MEM_AREA_IO_NSEC], the result being 0 exactly when that call grants the
    mapping and [phys_to_virt] for [MEM_AREA_IO_NSEC] gives an address, which
    is then the base handed out. *)
Theorem secure_type_needs_both_properties
    {blob : Type} `{LibFdt blob} (fdt : blob) (offs st : Z) :
  _fdt_get_status fdt offs = Ret st ->
  (select_mtype st = MEM_AREA_IO_SEC <->
   exists p q,
     fdt_getprop fdt offs "status" = Some p /\ accepted p = false
     /\ fdt_getprop fdt offs "secure-status" = Some q /\ accepted q = true)
  /\ (dt_have_prop fdt offs "status" = false
      \/ dt_have_prop fdt offs "secure-status" = false ->
      forall (ARM32 : bool) (M : Type) (HM : CoreMmu M)
             (out out' : outputs) (s s' : machine M) (r : Z),
        dt_map_dev ARM32 fdt offs out s = Ret (r, out', s') ->
        (r = -1 /\ out' = out /\ s' = s)
        \/ exists pbase sz calls,
            _fdt_reg_base_address ARM32 fdt offs = Ret pbase
            /\ _fdt_reg_size ARM32 fdt offs = Ret sz
            /\ mmu s'
               = snd (core_mmu_add_mapping MEM_AREA_IO_NSEC pbase sz (mmu s))
            /\ (r = 0 <->
                fst (core_mmu_add_mapping MEM_AREA_IO_NSEC pbase sz (mmu s))
                = true
                /\ phys_to_virt pbase MEM_AREA_IO_NSEC (mmu s') <> 0)
            /\ (r = 0 ->
                out_base out' = phys_to_virt pbase MEM_AREA_IO_NSEC (mmu s'))
            /\ events s' = events s ++ calls
            /\ (forall e, In e calls ->
                          requested_mtype e <> Some MEM_AREA_IO_SEC)).
Proof.
  intros E.
  destruct (_fdt_get_status_flags fdt offs) as (st' & E' & Hn & Hs & _).
  assert (st' = st) by congruence. subst st'.
  assert (Hiff : select_mtype st = MEM_AREA_IO_SEC <->
                 exists p q,
                   fdt_getprop fdt offs "status" = Some p /\ accepted p = false
                   /\ fdt_getprop fdt offs "secure-status" = Some q
                   /\ accepted q = true).
  { rewrite select_mtype_secure. split.
    - intros (Hsec & Hnsec). rewrite Hsec in Hs. rewrite Hnsec in Hn, Hs.
      destruct (fdt_getprop fdt offs "status") as [p|]; [|discriminate].
      destruct (fdt_getprop fdt offs "secure-status") as [q|]; [|discriminate].
      exists p, q. auto.
    - intros (p & q & Hp & Ap & Hq & Aq). rewrite Hp in Hn. rewrite Hq in Hs.
      split; congruence. }
  split; [exact Hiff|].
  intros Hlack ARM32 M HM out out' s s' r Er.
  assert (Hty : select_mtype st = MEM_AREA_IO_NSEC).
  { destruct (select_mtype st) eqn:Et; [|reflexivity].
    destruct (proj1 Hiff eq_refl) as (p & q & Hp & _ & Hq & _).
    unfold dt_have_prop in Hlack. rewrite Hp, Hq in Hlack.
    destruct Hlack; discriminate. }
  assert (Hst : forall x, _fdt_get_status fdt offs = Ret x -> x = st)
    by (intros x Hx; congruence).
  apply dt_map_dev_returns in Er. destruct Er as (_ & Er).
  inversion Er as
      [ Hs0
      | st0 Hs0 Hne Hb
      | st0 pb0 sz0 Hs0 Hne Hb Hpb Hsz Hneg
      | st0 pb0 sz0 m' Hs0 Hne Hb Hpb Hsz Hnn Hm
      | st0 pb0 sz0 m' Hs0 Hne Hb Hpb Hsz Hnn Hm Hv
      | st0 pb0 sz0 m' Hs0 Hne Hb Hpb Hsz Hnn Hm Hv ];
    subst; try (left; auto; fail);
    apply Hst in Hs0; subst st0; rewrite Hty in *; right;
    exists pb0, sz0; eexists; cbn [mmu events out_base];
    rewrite Hm; cbn [fst snd];
    (split; [exact Hb|]); (split; [exact Hsz|]); (split; [reflexivity|]).
  - split; [split; [intros Hr; discriminate Hr
                   |intros (Hf & _); discriminate Hf]|].
    split; [intros Hr; discriminate Hr|]. split; [reflexivity|].
    cbn [In]. intros e [<-|[<-|[]]]; cbn; discriminate.
  - split; [split; [intros Hr; discriminate Hr
                   |intros (_ & Hnz); contradiction]|].
    split; [intros Hr; discriminate Hr|]. split; [reflexivity|].
    cbn [In]. intros e [<-|[<-|[<-|[]]]]; cbn; discriminate.
  - split; [split; [intros _; split; [reflexivity|assumption]
                   |intros _; reflexivity]|].
    split; [intros _; reflexivity|]. split; [reflexivity|].
    cbn [In]. intros e [<-|[<-|[]]]; cbn; discriminate.
Qed.

Lemma secure_type_needs_both_properties_witness :
  _fdt_get_status Sample.uart_tree 1
  = Ret (Z.lor DT_STATUS_OK_NSEC DT_STATUS_OK_SEC)
  /\ (dt_have_prop Sample.uart_tree 1 "status" = false
      \/ dt_have_prop Sample.uart_tree 1 "secure-status" = false)
  /\ dt_map_dev false Sample.uart_tree 1 Sample.untouched (Sample.boot true)
     = Ret (0, {| out_base := 1342177280; out_size := 4096 |},
            {| mmu := {| Sample.enabled := true;
                         Sample.mappings := [(MEM_AREA_IO_NSEC, 268435456, 4096)];
                         Sample.va_offset := 1073741824 |};
               events := [CallAddMapping MEM_AREA_IO_NSEC 268435456 4096;
                          CallPhysToVirt 268435456 MEM_AREA_IO_NSEC] |})
  /\ exists pbase sz,
      {| Sample.enabled := true;
         Sample.mappings := [(MEM_AREA_IO_NSEC, 268435456, 4096)];
         Sample.va_offset := 1073741824 |}
      = snd (core_mmu_add_mapping MEM_AREA_IO_NSEC pbase sz
               (mmu (Sample.boot true))).
Proof.
  assert (H1 : _fdt_get_status Sample.uart_tree 1
               = Ret (Z.lor DT_STATUS_OK_NSEC DT_STATUS_OK_SEC))
    by reflexivity.
  assert (H2 : dt_have_prop Sample.uart_tree 1 "status" = false
               \/ dt_have_prop Sample.uart_tree 1 "secure-status" = false)
    by (left; reflexivity).
  assert (H3 : dt_map_dev false Sample.uart_tree 1 Sample.untouched
                 (Sample.boot true)
               = Ret (0, {| out_base := 1342177280; out_size := 4096 |},
                      {| mmu := {| Sample.enabled := true;
                                   Sample.mappings :=
                                     [(MEM_AREA_IO_NSEC, 268435456, 4096)];
                                   Sample.va_offset := 1073741824 |};
                         events := [CallAddMapping MEM_AREA_IO_NSEC 268435456 4096;
                                    CallPhysToVirt 268435456 MEM_AREA_IO_NSEC] |}))
    by reflexivity.
  split; [exact H1|split; [exact H2|split; [exact H3|]]].
  destruct (proj2 (secure_type_needs_both_properties Sample.uart_tree 1 _ H1)
              H2 false Sample.table _ _ _ _ _ _ H3)
    as [(W & _)|(pbase & sz & calls & _ & _ & W & _)]; [discriminate W|].
  exists pbase, sz. exact W.
Defined.

(* ================================================================== *)
(** * Further properties of the address resolver *)

Lemma load_cell_short (cell : list byte) :
  (List.length cell < 4)%nat -> load_cell cell = Stop ReadOutsideObject.
Proof.
  destruct cell as [|b0 [|b1 [|b2 [|b3 rest]]]]; cbn [List.length]; intros Hl;
    try reflexivity. lia.
Qed.

Lemma load_cell_long (cell : list byte) :
  (4 <= List.length cell)%nat -> exists w, load_cell cell = Ret w.
Proof.
  destruct cell as [|b0 [|b1 [|b2 [|b3 rest]]]]; cbn [List.length]; intros Hl;
    try lia. eexists. reflexivity.
Qed.

Lemma length_cell_add (cell : list byte) (n : Z) :
  List.length (cell_add cell n) = (List.length cell - Z.to_nat (4 * n))%nat.
Proof.
  unfold cell_add. apply length_skipn.
Qed.

Lemma cell_add_cell_bytes (w : Z) (rest : list byte) :
  cell_add (cell_bytes w ++ rest) 1 = rest.
Proof.
  unfold cell_add, cell_bytes. cbn [map app].
  change (Z.to_nat (4 * 1)) with 4%nat. reflexivity.
Qed.

Lemma paddr_invalid_value (ARM32 : bool) :
  paddr_invalid ARM32 = if ARM32 then 2 ^ 32 - 1 else 2 ^ 64 - 1.
Proof. destruct ARM32; reflexivity. Qed.



(** X9. [_fdt_read_paddr] reads back an address stored the way the blob
    stores cells, most significant byte first: a non-zero 32-bit address
    from one cell on either platform and from two cells with a zero first
    one on the 32-bit platform, a non-zero 64-bit address from its two
    halves, upper half first, on the 64-bit platform. What follows the
    cells in the value does not matter. *)
Theorem read_paddr_reads_back_encoding (a : Z) (rest : list byte) :
  (0 < a < 2 ^ 32 ->
   forall ARM32, _fdt_read_paddr ARM32 (cells_bytes [a] ++ rest) 1 = Ret a)
  /\ (0 < a < 2 ^ 32 ->
      _fdt_read_paddr true (cells_bytes [0; a] ++ rest) 2 = Ret a)
  /\ (0 < a < 2 ^ 64 ->
      _fdt_read_paddr false (cells_bytes [a / 2 ^ 32; a mod 2 ^ 32] ++ rest) 2
      = Ret a).
Proof.
  assert (Hnz : forall x bad, x <> 0 -> (if x =? 0 then bad else x) = x).
  { intros x bad Hx. destruct (x =? 0) eqn:E; [|reflexivity].
    apply Z.eqb_eq in E. contradiction. }
  split; [|split].
  - intros Ha ARM32. unfold cells_bytes. cbn [flat_map].
    rewrite app_nil_r.
    rewrite (_fdt_read_paddr_one ARM32 _ a) by (apply load_cell_bytes; lia).
    rewrite Hnz by lia. reflexivity.
  - intros Ha. unfold cells_bytes. cbn [flat_map].
    rewrite app_nil_r, <- app_assoc.
    rewrite (_fdt_read_paddr_two_low _ a).
    + rewrite Hnz by lia. reflexivity.
    + apply load_cell_bytes. lia.
    + rewrite cell_add_cell_bytes. apply load_cell_bytes. lia.
  - intros Ha. unfold cells_bytes. cbn [flat_map].
    rewrite app_nil_r, <- app_assoc.
    assert (Hhi : 0 <= a / 2 ^ 32 < 2 ^ 32).
    { split; [apply Z.div_pos; lia|].
      apply Z.div_lt_upper_bound; [lia|].
      change (2 ^ 32 * 2 ^ 32) with (2 ^ 64). lia. }
    assert (Hlo : 0 <= a mod 2 ^ 32 < 2 ^ 32) by (apply Z.mod_pos_bound; lia).
    rewrite (_fdt_read_paddr_two_wide _ (a / 2 ^ 32) (a mod 2 ^ 32)).
    + assert (Hsum : a / 2 ^ 32 * 2 ^ 32 + a mod 2 ^ 32 = a).
      { rewrite (Z.div_mod a (2 ^ 32)) at 3 by lia. lia. }
      rewrite Hsum, Hnz by lia. reflexivity.
    + apply load_cell_bytes. exact Hhi.
    + rewrite cell_add_cell_bytes. apply load_cell_bytes. exact Hlo.
Qed.

Lemma read_paddr_reads_back_encoding_witness :
  0 < 4563402752 < 2 ^ 64
  /\ _fdt_read_paddr false
       (cells_bytes [4563402752 / 2 ^ 32; 4563402752 mod 2 ^ 32] ++ []) 2
     = Ret 4563402752.
Proof.
  assert (H1 : 0 < 4563402752 < 2 ^ 64) by (vm_compute; split; reflexivity).
  split; [exact H1|].
  exact (proj2 (proj2 (read_paddr_reads_back_encoding 4563402752 [])) H1).
Defined.

(** X10. Neither address function compares the length of the [reg] value
    with the cells it reads: for a node with a parent and valid cell counts
    whose [reg] is shorter than one cell (an empty [reg] for one),
    [_fdt_reg_base_address] loads bytes that are not part of the value, and
    so does [_fdt_reg_size] whenever [reg] ends before the first size
    cell does. *)
Theorem reg_length_is_not_checked
    (ARM32 : bool) {blob : Type} `{LibFdt blob} (fdt : blob) (offs : Z)
    (reg : list byte) (na ns : Z) :
  0 <= fdt_parent_offset fdt offs ->
  fdt_getprop fdt offs "reg" = Some reg ->
  fdt_address_cells fdt (fdt_parent_offset fdt offs) = na ->
  fdt_size_cells fdt (fdt_parent_offset fdt offs) = ns ->
  na = 1 \/ na = 2 ->
  ((List.length reg < 4)%nat ->
   _fdt_reg_base_address ARM32 fdt offs = Stop ReadOutsideObject)
  /\ (ns = 1 \/ ns = 2 ->
      Z.of_nat (List.length reg) < 4 * na + 4 ->
      _fdt_reg_size ARM32 fdt offs = Stop ReadOutsideObject).
Proof.
  intros Hp Hreg Hna Hns Ha.
  assert (Hpar : (fdt_parent_offset fdt offs <? 0) = false)
    by (apply Z.ltb_ge; exact Hp).
  split.
  - intros Hl. unfold _fdt_reg_base_address. rewrite Hpar, Hreg, Hna.
    unfold _fdt_read_paddr. rewrite (load_cell_short reg Hl).
    destruct Ha as [-> | ->]; reflexivity.
  - intros Hs Hl. unfold _fdt_reg_size. rewrite Hpar, Hreg, Hna, Hns.
    assert (Hshort : load_cell (cell_add reg na) = Stop ReadOutsideObject).
    { apply load_cell_short. rewrite length_cell_add. lia. }
    destruct Ha as [-> | ->]; destruct Hs as [-> | ->];
      cbn -[load_cell cell_add]; rewrite Hshort; reflexivity.
Qed.

Lemma reg_length_is_not_checked_witness :
  0 <= fdt_parent_offset (Sample.reg_tree 1 1 []) 1
  /\ fdt_getprop (Sample.reg_tree 1 1 []) 1 "reg" = Some []
  /\ _fdt_reg_base_address true (Sample.reg_tree 1 1 []) 1
     = Stop ReadOutsideObject.
Proof.
  assert (H1 : 0 <= fdt_parent_offset (Sample.reg_tree 1 1 []) 1)
    by (vm_compute; discriminate).
  assert (H2 : fdt_getprop (Sample.reg_tree 1 1 []) 1 "reg" = Some [])
    by reflexivity.
  assert (H3 : fdt_address_cells (Sample.reg_tree 1 1 [])
                 (fdt_parent_offset (Sample.reg_tree 1 1 []) 1) = 1)
    by reflexivity.
  assert (H4 : fdt_size_cells (Sample.reg_tree 1 1 [])
                 (fdt_parent_offset (Sample.reg_tree 1 1 []) 1) = 1)
    by reflexivity.
  split; [exact H1|split; [exact H2|]].
  apply (proj1 (reg_length_is_not_checked true (Sample.reg_tree 1 1 []) 1
                  [] 1 1 H1 H2 H3 H4 (or_introl eq_refl))).
  cbn. lia.
Defined.

(** X11. On the 64-bit platform the only negative value [_fdt_reg_size]
    returns is -1: a size that was read is below [2^32] and not negative,
    so the test [sz < 0] of the caller separates failure from size. On the
    32-bit platform the result is any [ssize_t] of 32 bits. *)
Theorem reg_size_result_range
    (ARM32 : bool) {blob : Type} `{LibFdt blob} (fdt : blob) (offs sz : Z) :
  _fdt_reg_size ARM32 fdt offs = Ret sz ->
  sz = -1
  \/ (ARM32 = false /\ 0 <= sz < 2 ^ 32)
  \/ (ARM32 = true /\ - 2 ^ 31 <= sz < 2 ^ 31).
Proof.
  intros E.
  assert (Hcell : forall w, 0 <= w < 2 ^ 32 ->
            to_ssize ARM32 w = -1
            \/ (ARM32 = false /\ 0 <= to_ssize ARM32 w < 2 ^ 32)
            \/ (ARM32 = true /\ - 2 ^ 31 <= to_ssize ARM32 w < 2 ^ 31)).
  { intros w Hw. rewrite to_ssize_cell by exact Hw.
    destruct ARM32; cbn [andb].
    - right. right. split; [reflexivity|].
      destruct (2 ^ 31 <=? w) eqn:El;
        [apply Z.leb_le in El|apply Z.leb_gt in El]; lia.
    - right. left. split; [reflexivity|exact Hw]. }
  unfold _fdt_reg_size in E.
  repeat (first [break_bind_in E | break_match_in E]; try discriminate);
    injection E as <-;
    try (left; reflexivity);
    try (left; apply to_ssize_paddr_invalid);
    apply Hcell; eapply load_cell_range; eassumption.
Qed.

Lemma reg_size_result_range_witness :
  _fdt_reg_size false Sample.uart_tree 1 = Ret 4096
  /\ (4096 = -1
      \/ (false = false /\ 0 <= 4096 < 2 ^ 32)
      \/ (false = true /\ - 2 ^ 31 <= 4096 < 2 ^ 31)).
Proof.
  assert (H1 : _fdt_reg_size false Sample.uart_tree 1 = Ret 4096)
    by reflexivity.
  split; [exact H1|].
  exact (reg_size_result_range false Sample.uart_tree 1 4096 H1).
Defined.

(* ================================================================== *)
(** * Further properties of the compatibility matcher *)

Section MatcherResults.
Context {blob : Type} `{LibFdt blob}.
Variable fdt : blob.
Variable offs : Z.

(** Where the inner loop returns, an element was reported compatible, and
    those before it were reported not to be. *)
Lemma match_loop_true_inv (dm : list dt_device_match) :
  match_loop fdt offs dm = Ret true ->
  exists pre m post,
    dm = pre ++ m :: post
    /\ Forall (fun m' => exists r, r <> 0 /\
                 fdt_node_check_compatible fdt offs (compatible m') = Ret r) pre
    /\ fdt_node_check_compatible fdt offs (compatible m) = Ret 0.
Proof.
  induction dm as [|m0 dm IH]; cbn [match_loop]; intros E; [discriminate|].
  destruct (fdt_node_check_compatible fdt offs (compatible m0)) as [r|f] eqn:Ec;
    cbn [bind] in E; [|discriminate].
  destruct (r =? 0) eqn:Er.
  - apply Z.eqb_eq in Er. subst r. exists [], m0, dm. auto.
  - apply Z.eqb_neq in Er. destruct (IH E) as (pre & m & post & -> & Hpre & Hm).
    exists (m0 :: pre), m, post. split; [reflexivity|]. split; [|exact Hm].
    constructor; [|exact Hpre]. exists r. auto.
Qed.

Lemma find_without_tables (registry : list dt_driver) :
  Forall (fun drv => match_table drv = None) registry ->
  dt_find_compatible_driver fdt offs registry = Ret None.
Proof.
  induction 1 as [|drv rest Hd _ IH]; cbn [dt_find_compatible_driver];
    [reflexivity|].
  unfold scan_match_table. rewrite Hd. exact IH.
Qed.

(** The descriptors behind the first one that has a table play no part. *)
Lemma find_ignores_rest (skipped : list dt_driver) (drv : dt_driver)
      (dm : list dt_device_match) (rest rest' : list dt_driver) :
  Forall (fun d => match_table d = None) skipped ->
  match_table drv = Some dm ->
  dt_find_compatible_driver fdt offs (skipped ++ drv :: rest)
  = dt_find_compatible_driver fdt offs (skipped ++ drv :: rest').
Proof.
  intros Hskip Ht.
  induction Hskip as [|d skipped Hd _ IH];
    cbn [app dt_find_compatible_driver]; unfold scan_match_table.
  - rewrite Ht. pose proof (match_loop_no_exit fdt offs dm) as Hne.
    destruct (match_loop fdt offs dm) as [[|]|f]; cbn [bind];
      try reflexivity. contradiction.
  - rewrite Hd. cbn [bind]. exact IH.
Qed.
End MatcherResults.

(** X12. [dt_find_compatible_driver] returns a descriptor in exactly one
    situation: the descriptors before it in the registry have no table, and
    in its own table an element is reported compatible with the node while
    every element before that one is reported, without error, not to be. So
    a descriptor that is returned does match the node, and it is the first
    descriptor that has a table. *)
Theorem find_driver_returns_first_table_match
    {blob : Type} `{LibFdt blob} (fdt : blob) (offs : Z)
    (registry : list dt_driver) (drv : dt_driver) :
  dt_find_compatible_driver fdt offs registry = Ret (Some drv) <->
  exists skipped rest pre m post,
    registry = skipped ++ drv :: rest
    /\ Forall (fun d => match_table d = None) skipped
    /\ match_table drv = Some (pre ++ m :: post)
    /\ Forall (fun m' => exists r, r <> 0 /\
                 fdt_node_check_compatible fdt offs (compatible m') = Ret r) pre
    /\ fdt_node_check_compatible fdt offs (compatible m) = Ret 0.
Proof.
  split.
  - induction registry as [|d registry IH]; cbn [dt_find_compatible_driver];
      intros E; [discriminate|].
    unfold scan_match_table in E.
    destruct (match_table d) as [dm|] eqn:Et.
    + pose proof (match_loop_no_exit fdt offs dm) as Hne.
      destruct (match_loop fdt offs dm) as [[|]|f] eqn:El; cbn [bind] in E;
        try discriminate; [|contradiction].
      injection E as <-.
      destruct (match_loop_true_inv fdt offs dm El)
        as (pre & m & post & -> & Hpre & Hm).
      exists [], registry, pre, m, post. auto.
    + cbn [bind] in E.
      destruct (IH E) as (skipped & rest & pre & m & post & -> & Hs & Hrest).
      exists (d :: skipped), rest, pre, m, post.
      split; [reflexivity|]. split; [constructor; assumption|exact Hrest].
  - intros (skipped & rest & pre & m & post & -> & Hs & Ht & Hpre & Hm).
    eapply find_first_with_table; eassumption.
Qed.

(** X13. [dt_find_compatible_driver] returns the null result exactly for a
    registry in which no descriptor has a match table, the empty registry
    included; a table that matches nothing never leads to it. *)
Theorem find_driver_null_iff_no_table
    {blob : Type} `{LibFdt blob} (fdt : blob) (offs : Z)
    (registry : list dt_driver) :
  dt_find_compatible_driver fdt offs registry = Ret None <->
  Forall (fun drv => match_table drv = None) registry.
Proof.
  split.
  - apply find_none_only_without_tables.
  - apply find_without_tables.
Qed.

(** X14. The descriptors registered behind the first one that has a match
    table are never looked at: replacing them by any others leaves the
    result of [dt_find_compatible_driver] as it is. *)
Theorem find_driver_ignores_later_descriptors
    {blob : Type} `{LibFdt blob} (fdt : blob) (offs : Z)
    (skipped : list dt_driver) (drv : dt_driver) (dm : list dt_device_match)
    (rest rest' : list dt_driver) :
  Forall (fun d => match_table d = None) skipped ->
  match_table drv = Some dm ->
  dt_find_compatible_driver fdt offs (skipped ++ drv :: rest)
  = dt_find_compatible_driver fdt offs (skipped ++ drv :: rest').
Proof.
  apply find_ignores_rest.
Qed.

Lemma find_driver_ignores_later_descriptors_witness :
  Forall (fun d => match_table d = None) [Sample.bare_driver]
  /\ match_table Sample.uart_driver
     = Some [ {| compatible := Some "vendor,uart"%string |};
              {| compatible := None |} ]
  /\ dt_find_compatible_driver Sample.gic_tree 1
       ([Sample.bare_driver] ++ Sample.uart_driver :: [Sample.gic_driver])
     = dt_find_compatible_driver Sample.gic_tree 1
         ([Sample.bare_driver] ++ Sample.uart_driver :: []).
Proof.
  assert (H1 : Forall (fun d => match_table d = None) [Sample.bare_driver])
    by (repeat constructor).
  assert (H2 : match_table Sample.uart_driver
               = Some [ {| compatible := Some "vendor,uart"%string |};
                        {| compatible := None |} ]) by reflexivity.
  split; [exact H1|split; [exact H2|]].
  exact (find_driver_ignores_later_descriptors Sample.gic_tree 1
           [Sample.bare_driver] Sample.uart_driver _ [Sample.gic_driver] []
           H1 H2).
Defined.

(* ================================================================== *)
(** * Further properties of [dt_map_dev] *)

Section MapDeviceResults.
Variable ARM32 : bool.
Context {blob : Type} `{LibFdt blob}.
Context {M : Type} `{CoreMmu M}.
Variable fdt : blob.
Variable offs : Z.

(** With the base or the size unresolved [dt_map_dev] gives up at once,
    whatever the status is. *)
Lemma dt_map_dev_unresolved (out : outputs) (s : machine M) :
  cpu_mmu_enabled (mmu s) = true ->
  _fdt_reg_base_address ARM32 fdt offs = Ret (paddr_invalid ARM32)
  \/ (exists pbase sz,
        _fdt_reg_base_address ARM32 fdt offs = Ret pbase
        /\ _fdt_reg_size ARM32 fdt offs = Ret sz /\ sz < 0) ->
  dt_map_dev ARM32 fdt offs out s = Ret (-1, out, s).
Proof.
  intros Hen Hun. unfold dt_map_dev. rewrite Hen. cbn [negb].
  destruct (_fdt_get_status_returns fdt offs) as (st & ->). cbn [bind].
  destruct (st =? DT_STATUS_DISABLED); [reflexivity|].
  destruct Hun as [Eb|(pbase & sz & Eb & Es & Hsz)]; rewrite Eb; cbn [bind].
  - rewrite Z.eqb_refl. reflexivity.
  - destruct (pbase =? paddr_invalid ARM32); [reflexivity|].
    rewrite Es. cbn [bind].
    apply Z.ltb_lt in Hsz. rewrite Hsz. reflexivity.
Qed.

Lemma reg_base_address_returns_on_full_reg :
  (forall reg, fdt_getprop fdt offs "reg" = Some reg ->
               (16 <= List.length reg)%nat) ->
  exists pbase, _fdt_reg_base_address ARM32 fdt offs = Ret pbase.
Proof.
  intros Hfull. unfold _fdt_reg_base_address.
  destruct (_ <? 0); [eexists; reflexivity|].
  destruct (fdt_getprop fdt offs "reg") as [reg|] eqn:Er;
    [|eexists; reflexivity].
  specialize (Hfull reg eq_refl).
  destruct (_ <? 0); [eexists; reflexivity|].
  destruct (load_cell_long reg ltac:(lia)) as (w0 & E0).
  destruct (load_cell_long (cell_add reg 1)) as (w1 & E1).
  { rewrite length_cell_add. change (Z.to_nat (4 * 1)) with 4%nat. lia. }
  unfold _fdt_read_paddr. rewrite E0. cbn [bind]. cbv zeta. rewrite E1.
  cbn [bind].
  repeat break_match; eexists; reflexivity.
Qed.

Lemma reg_size_returns_on_full_reg :
  (forall reg, fdt_getprop fdt offs "reg" = Some reg ->
               (16 <= List.length reg)%nat) ->
  exists sz, _fdt_reg_size ARM32 fdt offs = Ret sz.
Proof.
  intros Hfull. unfold _fdt_reg_size.
  destruct (_ <? 0); [eexists; reflexivity|].
  destruct (fdt_getprop fdt offs "reg") as [reg|] eqn:Er;
    [|eexists; reflexivity].
  specialize (Hfull reg eq_refl).
  set (na := fdt_address_cells fdt (fdt_parent_offset fdt offs)).
  destruct ((na <? 1) || (na >? 2)) eqn:Ena; [eexists; reflexivity|].
  assert (Hna : 1 <= na <= 2).
  { apply orb_false_elim in Ena. destruct Ena as (E1 & E2).
    apply Z.ltb_ge in E1. rewrite Z.gtb_ltb in E2. apply Z.ltb_ge in E2. lia. }
  set (ns := fdt_size_cells fdt (fdt_parent_offset fdt offs)).
  destruct ((ns <? 1) || (ns >? 2)); [eexists; reflexivity|].
  destruct (load_cell_long (cell_add reg na)) as (w0 & E0).
  { rewrite length_cell_add. lia. }
  destruct (load_cell_long (cell_add (cell_add reg na) 1)) as (w1 & E1).
  { rewrite !length_cell_add. change (Z.to_nat (4 * 1)) with 4%nat. lia. }
  rewrite E0. cbn [bind]. rewrite E1. cbn [bind].
  repeat break_match; eexists; reflexivity.
Qed.
End MapDeviceResults.

(** X15. A node for which [dt_have_prop] finds no [reg], or which has no
    parent, cannot be mapped: both address functions report failure, and
    [dt_map_dev] returns -1 without a call to the mapping layer and without
    a log message, whatever the status of the node. *)
Theorem node_without_reg_is_not_mapped
    (ARM32 : bool) {blob : Type} `{LibFdt blob} {M : Type} `{CoreMmu M}
    (fdt : blob) (offs : Z) (out : outputs) (s : machine M) :
  dt_have_prop fdt offs "reg" = false \/ fdt_parent_offset fdt offs < 0 ->
  _fdt_reg_base_address ARM32 fdt offs = Ret (paddr_invalid ARM32)
  /\ _fdt_reg_size ARM32 fdt offs = Ret (-1)
  /\ (cpu_mmu_enabled (mmu s) = true ->
      dt_map_dev ARM32 fdt offs out s = Ret (-1, out, s)).
Proof.
  intros Hno.
  assert (Eb : _fdt_reg_base_address ARM32 fdt offs
               = Ret (paddr_invalid ARM32)).
  { unfold _fdt_reg_base_address, dt_have_prop in *.
    destruct (fdt_parent_offset fdt offs <? 0) eqn:Ep; [reflexivity|].
    apply Z.ltb_ge in Ep.
    destruct (fdt_getprop fdt offs "reg"); [|reflexivity].
    destruct Hno as [Hno|Hno]; [discriminate|lia]. }
  split; [exact Eb|]. split.
  - unfold _fdt_reg_size, dt_have_prop in *.
    destruct (fdt_parent_offset fdt offs <? 0) eqn:Ep;
      [rewrite to_ssize_paddr_invalid; reflexivity|].
    apply Z.ltb_ge in Ep.
    destruct (fdt_getprop fdt offs "reg"); [|reflexivity].
    destruct Hno as [Hno|Hno]; [discriminate|lia].
  - intros Hen. apply dt_map_dev_unresolved; [exact Hen|]. left. exact Eb.
Qed.

Lemma node_without_reg_is_not_mapped_witness :
  (dt_have_prop Sample.noreg_tree 1 "reg" = false
   \/ fdt_parent_offset Sample.noreg_tree 1 < 0)
  /\ _fdt_reg_base_address true Sample.noreg_tree 1 = Ret (paddr_invalid true)
  /\ _fdt_reg_size true Sample.noreg_tree 1 = Ret (-1)
  /\ (cpu_mmu_enabled (mmu (Sample.boot true)) = true ->
      dt_map_dev true Sample.noreg_tree 1 Sample.untouched (Sample.boot true)
      = Ret (-1, Sample.untouched, Sample.boot true)).
Proof.
  assert (H1 : dt_have_prop Sample.noreg_tree 1 "reg" = false
               \/ fdt_parent_offset Sample.noreg_tree 1 < 0)
    by (left; reflexivity).
  split; [exact H1|].
  exact (node_without_reg_is_not_mapped true Sample.noreg_tree 1
           Sample.untouched (Sample.boot true) H1).
Defined.

(** X16. With the MMU enabled, [dt_map_dev] returns for every node whose
    [reg], when it has one, holds four cells (16 bytes) or more: no cell
    count, status value or answer of the mapping layer can make it load
    outside the value or stop otherwise. *)
Theorem map_dev_returns_on_full_reg
    (ARM32 : bool) {blob : Type} `{LibFdt blob} {M : Type} `{CoreMmu M}
    (fdt : blob) (offs : Z) (out : outputs) (s : machine M) :
  cpu_mmu_enabled (mmu s) = true ->
  (forall reg, fdt_getprop fdt offs "reg" = Some reg ->
               (16 <= List.length reg)%nat) ->
  exists r out' s', dt_map_dev ARM32 fdt offs out s = Ret (r, out', s').
Proof.
  intros Hen Hfull. unfold dt_map_dev. rewrite Hen. cbn [negb].
  destruct (_fdt_get_status_returns fdt offs) as (st & ->). cbn [bind].
  destruct (reg_base_address_returns_on_full_reg ARM32 fdt offs Hfull)
    as (pbase & ->).
  destruct (reg_size_returns_on_full_reg ARM32 fdt offs Hfull) as (sz & ->).
  cbn [bind].
  repeat break_match; do 3 eexists; reflexivity.
Qed.

Lemma map_dev_returns_on_full_reg_witness :
  cpu_mmu_enabled (mmu (Sample.boot true)) = true
  /\ (forall reg, fdt_getprop Sample.uart_tree 1 "reg" = Some reg ->
                  (16 <= List.length reg)%nat)
  /\ exists r out' s',
      dt_map_dev true Sample.uart_tree 1 Sample.untouched (Sample.boot true)
      = Ret (r, out', s').
Proof.
  assert (H1 : cpu_mmu_enabled (mmu (Sample.boot true)) = true)
    by reflexivity.
  assert (H2 : forall reg, fdt_getprop Sample.uart_tree 1 "reg" = Some reg ->
                           (16 <= List.length reg)%nat).
  { intros reg E. injection E as <-. vm_compute. lia. }
  split; [exact H1|split; [exact H2|]].
  exact (map_dev_returns_on_full_reg true Sample.uart_tree 1 Sample.untouched
           (Sample.boot true) H1 H2).
Defined.

(** X17. What [dt_map_dev] does to the outside before it returns is one of
    four things: nothing; one mapping request that is refused, and a log
    message; one mapping request that is granted, one translation of the
    same base for the same memory type that gives null, and a log message;
    or the request and the translation alone, and then, and only then, the
    result is 0. A translation is never asked for without a granted
    request before it, and the state of the mapping layer afterwards is the
    one the request left. *)
Theorem map_dev_call_sequence
    (ARM32 : bool) {blob : Type} `{LibFdt blob} {M : Type} `{CoreMmu M}
    (fdt : blob) (offs : Z) (out out' : outputs) (s s' : machine M) (r : Z) :
  dt_map_dev ARM32 fdt offs out s = Ret (r, out', s') ->
  (r = -1 /\ s' = s)
  \/ exists t pbase sz,
      mmu s' = snd (core_mmu_add_mapping t pbase sz (mmu s))
      /\ ((r = -1
           /\ fst (core_mmu_add_mapping t pbase sz (mmu s)) = false
           /\ events s' = events s ++ [CallAddMapping t pbase sz;
                                       EmsgFailedToMap sz pbase])
          \/ (r = -1
              /\ fst (core_mmu_add_mapping t pbase sz (mmu s)) = true
              /\ phys_to_virt pbase t (mmu s') = 0
              /\ events s' = events s ++ [CallAddMapping t pbase sz;
                                          CallPhysToVirt pbase t;
                                          EmsgFailedToGetVa pbase])
          \/ (r = 0
              /\ fst (core_mmu_add_mapping t pbase sz (mmu s)) = true
              /\ phys_to_virt pbase t (mmu s') <> 0
              /\ events s' = events s ++ [CallAddMapping t pbase sz;
                                          CallPhysToVirt pbase t])).
Proof.
  intros E. apply dt_map_dev_returns in E. destruct E as (_ & E).
  inversion E; subst; try (left; split; reflexivity); right;
    exists (select_mtype st), pbase, sz; cbn [mmu events];
    match goal with
    | Hm : core_mmu_add_mapping _ _ _ _ = _ |- _ => rewrite Hm
    end; cbn [fst snd]; (split; [reflexivity|]); auto 8.
Qed.

Lemma map_dev_call_sequence_witness :
  dt_map_dev false Sample.uart_tree 1 Sample.untouched (Sample.boot true)
  = Ret (0, {| out_base := 1342177280; out_size := 4096 |},
         {| mmu := {| Sample.enabled := true;
                      Sample.mappings := [(MEM_AREA_IO_NSEC, 268435456, 4096)];
                      Sample.va_offset := 1073741824 |};
            events := [CallAddMapping MEM_AREA_IO_NSEC 268435456 4096;
                       CallPhysToVirt 268435456 MEM_AREA_IO_NSEC] |})
  /\ exists t pbase sz,
      {| Sample.enabled := true;
         Sample.mappings := [(MEM_AREA_IO_NSEC, 268435456, 4096)];
         Sample.va_offset := 1073741824 |}
      = snd (core_mmu_add_mapping t pbase sz (mmu (Sample.boot true))).
Proof.
  assert (H1 : dt_map_dev false Sample.uart_tree 1 Sample.untouched
                 (Sample.boot true)
               = Ret (0, {| out_base := 1342177280; out_size := 4096 |},
                      {| mmu := {| Sample.enabled := true;
                                   Sample.mappings :=
                                     [(MEM_AREA_IO_NSEC, 268435456, 4096)];
                                   Sample.va_offset := 1073741824 |};
                         events := [CallAddMapping MEM_AREA_IO_NSEC 268435456 4096;
                                    CallPhysToVirt 268435456 MEM_AREA_IO_NSEC] |}))
    by reflexivity.
  split; [exact H1|].
  destruct (map_dev_call_sequence false Sample.uart_tree 1 _ _ _ _ _ H1)
    as [(W & _)|(t & pbase & sz & W & _)]; [discriminate W|].
  exists t, pbase, sz. exact W.
Defined.

(** X18. When the base address is reported as [(paddr_t)-1], or the size as
    a negative number, [dt_map_dev] returns -1 and has asked nothing of the
    mapping layer and logged nothing: state and outputs are those of before
    the call. *)
Theorem map_dev_unresolved_makes_no_call
    (ARM32 : bool) {blob : Type} `{LibFdt blob} {M : Type} `{CoreMmu M}
    (fdt : blob) (offs : Z) (out : outputs) (s : machine M) :
  cpu_mmu_enabled (mmu s) = true ->
  _fdt_reg_base_address ARM32 fdt offs = Ret (paddr_invalid ARM32)
  \/ (exists pbase sz,
        _fdt_reg_base_address ARM32 fdt offs = Ret pbase
        /\ _fdt_reg_size ARM32 fdt offs = Ret sz /\ sz < 0) ->
  dt_map_dev ARM32 fdt offs out s = Ret (-1, out, s).
Proof.
  apply dt_map_dev_unresolved.
Qed.

Lemma map_dev_unresolved_makes_no_call_witness :
  cpu_mmu_enabled (mmu (Sample.boot true)) = true
  /\ (_fdt_reg_base_address true
        (Sample.reg_tree 1 2 [268435456; 1; 4096]) 1 = Ret (paddr_invalid true)
      \/ exists pbase sz,
          _fdt_reg_base_address true
            (Sample.reg_tree 1 2 [268435456; 1; 4096]) 1 = Ret pbase
          /\ _fdt_reg_size true
               (Sample.reg_tree 1 2 [268435456; 1; 4096]) 1 = Ret sz
          /\ sz < 0)
  /\ dt_map_dev true (Sample.reg_tree 1 2 [268435456; 1; 4096]) 1
       Sample.untouched (Sample.boot true)
     = Ret (-1, Sample.untouched, Sample.boot true).
Proof.
  assert (H1 : cpu_mmu_enabled (mmu (Sample.boot true)) = true)
    by reflexivity.
  assert (H2 : _fdt_reg_base_address true
                 (Sample.reg_tree 1 2 [268435456; 1; 4096]) 1
               = Ret (paddr_invalid true)
               \/ exists pbase sz,
                   _fdt_reg_base_address true
                     (Sample.reg_tree 1 2 [268435456; 1; 4096]) 1 = Ret pbase
                   /\ _fdt_reg_size true
                        (Sample.reg_tree 1 2 [268435456; 1; 4096]) 1 = Ret sz
                   /\ sz < 0).
  { right. exists 268435456, (-1). repeat split. }
  split; [exact H1|split; [exact H2|]].
  exact (map_dev_unresolved_makes_no_call true _ 1 Sample.untouched
           (Sample.boot true) H1 H2).
Defined.

(** X19. Status, base, size and mapping together, for a plain device node:
    no [status], no [secure-status], one address cell [a] and one size cell
    [sz] under its parent, [a] neither zero nor all ones and [sz] below
    [2^31]. With the MMU enabled [dt_map_dev] returns 0 or -1; the mapping
    layer is called for a non-secure I/O mapping of [sz] bytes at [a]: the
    state afterwards is the one [core_mmu_add_mapping] gives for just these
    arguments, and this call comes first in the record; the result is 0
    exactly when the call grants the mapping and [phys_to_virt] of [a] for
    non-secure I/O gives an address, and then the outputs are that address
    and [sz]; otherwise the outputs are as before. *)
Theorem plain_node_is_mapped_nonsecure
    (ARM32 : bool) {blob : Type} `{LibFdt blob} {M : Type} `{CoreMmu M}
    (fdt : blob) (offs : Z) (out : outputs) (s : machine M)
    (a sz : Z) (rest : list byte) :
  cpu_mmu_enabled (mmu s) = true ->
  dt_have_prop fdt offs "status" = false ->
  dt_have_prop fdt offs "secure-status" = false ->
  0 <= fdt_parent_offset fdt offs ->
  fdt_address_cells fdt (fdt_parent_offset fdt offs) = 1 ->
  fdt_size_cells fdt (fdt_parent_offset fdt offs) = 1 ->
  fdt_getprop fdt offs "reg" = Some (cells_bytes [a; sz] ++ rest) ->
  0 < a < 2 ^ 32 - 1 ->
  0 <= sz < 2 ^ 31 ->
  exists r out' s' tail,
    dt_map_dev ARM32 fdt offs out s = Ret (r, out', s')
    /\ mmu s' = snd (core_mmu_add_mapping MEM_AREA_IO_NSEC a sz (mmu s))
    /\ events s' = events s ++ CallAddMapping MEM_AREA_IO_NSEC a sz :: tail
    /\ (r = 0 <->
        fst (core_mmu_add_mapping MEM_AREA_IO_NSEC a sz (mmu s)) = true
        /\ phys_to_virt a MEM_AREA_IO_NSEC (mmu s') <> 0)
    /\ (r = 0 ->
        out' = {| out_base := phys_to_virt a MEM_AREA_IO_NSEC (mmu s');
                  out_size := sz |})
    /\ (r <> 0 -> r = -1 /\ out' = out).
Proof.
  intros Hen Hst Hsst Hp Hna Hns Hreg Ha Hsz.
  assert (Hpar : (fdt_parent_offset fdt offs <? 0) = false)
    by (apply Z.ltb_ge; exact Hp).
  assert (Hbytes : cells_bytes [a; sz] ++ rest
                   = cell_bytes a ++ (cell_bytes sz ++ rest)).
  { unfold cells_bytes. cbn [flat_map]. rewrite app_nil_r, <- app_assoc.
    reflexivity. }
  assert (Est : _fdt_get_status fdt offs = Ret 3).
  { unfold _fdt_get_status, dt_have_prop in *.
    destruct (fdt_getprop fdt offs "status"); [discriminate|].
    destruct (fdt_getprop fdt offs "secure-status"); [discriminate|].
    reflexivity. }
  assert (Eb : _fdt_reg_base_address ARM32 fdt offs = Ret a).
  { unfold _fdt_reg_base_address. rewrite Hpar, Hreg, Hna, Hbytes.
    cbn [Z.ltb Z.compare].
    rewrite (_fdt_read_paddr_one ARM32 _ a) by (apply load_cell_bytes; lia).
    destruct (a =? 0) eqn:E; [apply Z.eqb_eq in E; lia|reflexivity]. }
  assert (Es : _fdt_reg_size ARM32 fdt offs = Ret sz).
  { unfold _fdt_reg_size. rewrite Hpar, Hreg, Hna, Hns, Hbytes.
    cbn -[load_cell cell_add cell_bytes to_ssize].
    rewrite cell_add_cell_bytes, load_cell_bytes by lia. cbn [bind].
    rewrite to_ssize_cell by lia.
    destruct (2 ^ 31 <=? sz) eqn:E; [apply Z.leb_le in E; lia|].
    rewrite andb_false_r. reflexivity. }
  assert (Hinv : (a =? paddr_invalid ARM32) = false).
  { apply Z.eqb_neq. rewrite paddr_invalid_value. destruct ARM32; lia. }
  assert (Hneg : (sz <? 0) = false) by (apply Z.ltb_ge; lia).
  assert (Hto : to_size ARM32 sz = sz).
  { apply to_size_small. destruct ARM32; cbn; lia. }
  unfold dt_map_dev. rewrite Hen, Est. cbn [negb bind].
  change (3 =? DT_STATUS_DISABLED) with false. cbv iota.
  rewrite Eb. cbn [bind]. rewrite Hinv, Es. cbn [bind]. rewrite Hneg, Hto.
  change (select_mtype 3) with MEM_AREA_IO_NSEC. cbv zeta.
  cbn [record_event mmu events].
  destruct (core_mmu_add_mapping MEM_AREA_IO_NSEC a sz (mmu s))
    as [mapped m'].
  cbn [fst snd].
  destruct mapped; cbn [negb].
  - destruct (phys_to_virt a MEM_AREA_IO_NSEC m' =? 0) eqn:Ev;
      [apply Z.eqb_eq in Ev|apply Z.eqb_neq in Ev];
      do 4 eexists; (split; [reflexivity|]);
      unfold record_event; cbn [mmu events];
      rewrite <- ?app_assoc; cbn [app];
      (split; [reflexivity|]); (split; [reflexivity|]).
    + split; [split; [intros Hr; discriminate Hr
                     |intros (_ & Hnz); contradiction]|].
      split; [intros Hr; discriminate Hr|]. intros _. auto.
    + split; [split; [intros _; auto|intros _; reflexivity]|].
      split; [intros _; reflexivity|]. intros Hr. contradiction.
  - do 4 eexists. split; [reflexivity|].
    unfold record_event. cbn [mmu events].
    rewrite <- ?app_assoc. cbn [app].
    split; [reflexivity|]. split; [reflexivity|].
    split; [split; [intros Hr; discriminate Hr
                   |intros (Hf & _); discriminate Hf]|].
    split; [intros Hr; discriminate Hr|]. intros _. auto.
Qed.

Lemma plain_node_is_mapped_nonsecure_witness :
  cpu_mmu_enabled (mmu (Sample.boot true)) = true
  /\ dt_have_prop (Sample.reg_tree 1 1 [268435456; 4096]) 1 "status" = false
  /\ 0 < 268435456 < 2 ^ 32 - 1
  /\ 0 <= 4096 < 2 ^ 31
  /\ exists r out' s' tail,
      dt_map_dev true (Sample.reg_tree 1 1 [268435456; 4096]) 1
        Sample.untouched (Sample.boot true) = Ret (r, out', s')
      /\ mmu s' = snd (core_mmu_add_mapping MEM_AREA_IO_NSEC 268435456 4096
                         (mmu (Sample.boot true)))
      /\ events s' = events (Sample.boot true)
                     ++ CallAddMapping MEM_AREA_IO_NSEC 268435456 4096 :: tail
      /\ (r = 0 <->
          fst (core_mmu_add_mapping MEM_AREA_IO_NSEC 268435456 4096
                 (mmu (Sample.boot true))) = true
          /\ phys_to_virt 268435456 MEM_AREA_IO_NSEC (mmu s') <> 0)
      /\ (r = 0 ->
          out' = {| out_base := phys_to_virt 268435456 MEM_AREA_IO_NSEC (mmu s');
                    out_size := 4096 |})
      /\ (r <> 0 -> r = -1 /\ out' = Sample.untouched).
Proof.
  assert (H1 : cpu_mmu_enabled (mmu (Sample.boot true)) = true)
    by reflexivity.
  assert (H2 : dt_have_prop (Sample.reg_tree 1 1 [268435456; 4096]) 1 "status"
               = false) by reflexivity.
  assert (H3 : dt_have_prop (Sample.reg_tree 1 1 [268435456; 4096]) 1
                 "secure-status" = false) by reflexivity.
  assert (H4 : 0 <= fdt_parent_offset (Sample.reg_tree 1 1 [268435456; 4096]) 1)
    by (vm_compute; discriminate).
  assert (H5 : fdt_address_cells (Sample.reg_tree 1 1 [268435456; 4096])
                 (fdt_parent_offset (Sample.reg_tree 1 1 [268435456; 4096]) 1)
               = 1) by reflexivity.
  assert (H6 : fdt_size_cells (Sample.reg_tree 1 1 [268435456; 4096])
                 (fdt_parent_offset (Sample.reg_tree 1 1 [268435456; 4096]) 1)
               = 1) by reflexivity.
  assert (H7 : fdt_getprop (Sample.reg_tree 1 1 [268435456; 4096]) 1 "reg"
               = Some (cells_bytes [268435456; 4096] ++ []))
    by reflexivity.
  assert (H8 : 0 < 268435456 < 2 ^ 32 - 1) by (vm_compute; split; reflexivity).
  assert (H9 : 0 <= 4096 < 2 ^ 31)
    by (vm_compute; split; [discriminate|reflexivity]).
  split; [exact H1|split; [exact H2|split; [exact H8|split; [exact H9|]]]].
  exact (plain_node_is_mapped_nonsecure true
           (Sample.reg_tree 1 1 [268435456; 4096]) 1 Sample.untouched
           (Sample.boot true) 268435456 4096 [] H1 H2 H3 H4 H5 H6 H7 H8 H9).
Defined.
